(** * The S3-to-RDS stage of the LMS pipeline: type coercion, datetime
      normalisation and upsert

    A shallow embedding of [src/s3_to_rds_lambda.py].

    - A pandas [DataFrame] is an ordered list of named columns, each a list of
      cells; a cell is a Python scalar as [read_csv] and the conversions of the
      file produce them.
    - [convert_dataframe_dtypes] and [parse_datetime_columns] mutate the frame
      in place and may raise: they are functions from a frame to the frame
      they leave behind together with the exception message, if any.
    - The destination table is a list of rows; a row and a parameter record
      ([DataFrame.to_dict(orient='records')]) are finite maps from column
      names to cells.  The connection carries the committed table and the
      working copy of the open transaction.

    What pandas, the JSON encoder and PostgreSQL decide on their own (how a
    string parses as a number, which rows the table's constraints refuse) is
    a parameter of the development. *)

From Stdlib Require Import ZArith String Ascii List Bool Lia DecimalString.
From stdpp Require Import base decidable option list gmap strings fin_maps.

Local Open Scope Z_scope.
Local Open Scope string_scope.

(** ** Python strings *)

Module PyStr.

(** [needle in hay] *)
Fixpoint contains (needle hay : string) : bool :=
  String.prefix needle hay
  || match hay with
     | EmptyString => false
     | String _ rest => contains needle rest
     end.

(** [s.replace(old, new)] for a non-empty [old]: occurrences are replaced
    from left to right and do not overlap.  [skip] counts the characters of
    a matched occurrence that are still to be dropped. *)
Fixpoint replace_go (old new : string) (skip : nat) (s : string) : string :=
  match s with
  | EmptyString => EmptyString
  | String c rest =>
      match skip with
      | S k => replace_go old new k rest
      | O =>
          if String.prefix old s
          then new ++ replace_go old new (Nat.pred (String.length old)) rest
          else String c (replace_go old new O rest)
      end
  end.

Definition replace (old new s : string) : string := replace_go old new O s.

(** [str(n)] for a Python int. *)
Definition of_Z (z : Z) : string := NilZero.string_of_int (Z.to_int z).

(** A number printed on at least [width] digits, padded with zeros. *)
Fixpoint zeros (n : nat) : string :=
  match n with O => EmptyString | S k => String "0" (zeros k) end.

Definition padded (width : nat) (z : Z) : string :=
  let s := of_Z z in zeros (width - String.length s) ++ s.

End PyStr.

(** ** Cells *)

(** The fields of a timestamp, to the second. *)
Record datetime := DateTime {
  year : Z; month : Z; day : Z; hour : Z; minute : Z; second : Z
}.

(** A timestamp is naive or tagged with the UTC zone. *)
Inductive tzinfo := Naive | UTC.

(** A scalar held in a DataFrame cell or bound to a statement parameter.
    A float is carried by its rendering [str(x)]: the only thing the program
    asks of a float is that rendering; the missing value of [read_csv] is the
    float whose rendering is ["nan"].  [CNull] stands for [None], [pd.NA] and
    [pd.NaT], each written to the database as NULL. *)
Inductive cell :=
| CFloat (repr : string)
| CInt (z : Z)
| CBool (b : bool)
| CStr (s : string)
| CStamp (d : datetime) (tz : tzinfo)
| CNull.

#[global] Instance datetime_eq_dec : EqDecision datetime.
Proof. solve_decision. Defined.
#[global] Instance tzinfo_eq_dec : EqDecision tzinfo.
Proof. solve_decision. Defined.
#[global] Instance cell_eq_dec : EqDecision cell.
Proof. solve_decision. Defined.

(** The float NaN, pandas' marker of a missing value. *)
Definition NaN : cell := CFloat "nan".

Definition is_null (c : cell) : bool :=
  match c with CNull => true | _ => false end.

(** [pd.isna(x)] *)
Definition isna (c : cell) : bool :=
  match c with
  | CNull => true
  | CFloat r => String.eqb r "nan"
  | _ => false
  end.

(** [str(Timestamp)]: ["2024-03-15 10:30:00"], with ["+00:00"] when tagged. *)
Definition str_of_stamp (d : datetime) (tz : tzinfo) : string :=
  PyStr.padded 4 (year d) ++ "-" ++ PyStr.padded 2 (month d) ++ "-"
  ++ PyStr.padded 2 (day d) ++ " " ++ PyStr.padded 2 (hour d) ++ ":"
  ++ PyStr.padded 2 (minute d) ++ ":" ++ PyStr.padded 2 (second d)
  ++ match tz with Naive => "" | UTC => "+00:00" end.

(** [str(x)] *)
Definition py_str (c : cell) : string :=
  match c with
  | CFloat r => r
  | CInt z => PyStr.of_Z z
  | CBool true => "True"
  | CBool false => "False"
  | CStr s => s
  | CStamp d tz => str_of_stamp d tz
  | CNull => "None"
  end.

(** [bool(x)] *)
Definition py_bool (c : cell) : bool :=
  match c with
  | CFloat r => negb (String.eqb r "0.0" || String.eqb r "-0.0")
  | CInt z => negb (Z.eqb z 0)
  | CBool b => b
  | CStr s => negb (String.eqb s "")
  | CStamp _ _ => true
  | CNull => false
  end.

(** ** DataFrames *)

Definition column : Type := string * list cell.
Definition dataframe : Type := list column.

(** [df.columns] *)
Definition df_columns (df : dataframe) : list string := map fst df.

(** [df[name]], [None] standing for the [KeyError]. *)
Fixpoint df_get (name : string) (df : dataframe) : option (list cell) :=
  match df with
  | [] => None
  | (n, cells) :: rest => if String.eqb n name then Some cells else df_get name rest
  end.

(** [df[name] = cells] for a column that exists: replaced in place. *)
Fixpoint df_set (name : string) (cells : list cell) (df : dataframe) : dataframe :=
  match df with
  | [] => []
  | (n, old) :: rest =>
      if String.eqb n name then (n, cells) :: rest
      else (n, old) :: df_set name cells rest
  end.

(** ** Type Coercer *)

(** What a statement that may raise leaves: its value, or the message of the
    exception. *)
Inductive result (A : Type) :=
| Ok (a : A)
| Raise (msg : string).
Arguments Ok {A} a.
Arguments Raise {A} msg.

(** [pd.to_numeric(x, errors='coerce')] on one value: an integer, a number
    that is not an integer (a fraction, an infinity), or NaN for what does
    not parse. *)
Inductive numeric :=
| NInt (z : Z)
| NInexact
| NNaN.

(** The schema of the destination table, in the order of its columns: the
    name of each column with [str(dtype)]. *)
Definition schema_info : Type := list (string * string).

(** The five families, by the substring tests of the source, in its order. *)
Definition is_integer_family (dtype : string) : bool :=
  PyStr.contains "INTEGER" dtype || PyStr.contains "BIGINT" dtype.

Definition is_text_family (dtype : string) : bool :=
  negb (is_integer_family dtype)
  && (PyStr.contains "VARCHAR" dtype || PyStr.contains "TEXT" dtype).

Definition is_boolean_family (dtype : string) : bool :=
  negb (is_integer_family dtype) && negb (is_text_family dtype)
  && PyStr.contains "BOOLEAN" dtype.

Definition is_date_family (dtype : string) : bool :=
  negb (is_integer_family dtype) && negb (is_text_family dtype)
  && negb (is_boolean_family dtype)
  && (PyStr.contains "DATE" dtype || PyStr.contains "TIMESTAMP" dtype).

Definition is_json_family (dtype : string) : bool :=
  negb (is_integer_family dtype) && negb (is_text_family dtype)
  && negb (is_boolean_family dtype) && negb (is_date_family dtype)
  && PyStr.contains "JSON" dtype.

(** The pre-pass, line 43:
    [str(x).replace('.0', '') if isinstance(x, float) else x]. *)
Definition strip_float (c : cell) : cell :=
  match c with
  | CFloat r => CStr (PyStr.replace ".0" "" r)
  | _ => c
  end.

Definition prepass (df : dataframe) : dataframe :=
  map (fun col : column => (fst col, map strip_float (snd col))) df.

Definition in_int64 (z : Z) : bool := Z.leb (- 2 ^ 63) z && Z.ltb z (2 ^ 63).

(** The message of the [TypeError] that [astype('Int64')] raises. *)
Definition unsafe_cast_msg : string :=
  "cannot safely cast non-equivalent float64 to int64".

(** The message of the [TypeError] that [tz_localize] raises. *)
Definition tz_aware_msg : string :=
  "Already tz-aware, use tz_convert to convert.".

(** [.astype('Int64')] on one converted value; [None] when the cast of the
    column raises. *)
Definition to_Int64 (n : numeric) : option cell :=
  match n with
  | NInt z => if in_int64 z then Some (CInt z) else None
  | NInexact => None
  | NNaN => Some CNull
  end.

(** [.astype(str)] and [.replace({'nan': ' '})] on one value. *)
Definition to_text (c : cell) : cell :=
  let s := py_str c in
  CStr (if String.eqb s "nan" then " " else s).

(** [.dt.tz_localize('UTC')] on one parsed value; [None] when it raises. *)
Definition localize_utc (p : option (datetime * tzinfo)) : option cell :=
  match p with
  | None => Some CNull
  | Some (d, Naive) => Some (CStamp d UTC)
  | Some (_, UTC) => None
  end.

(** All the values of a column, when none of them made the column raise. *)
Fixpoint all_some {A : Type} (l : list (option A)) : option (list A) :=
  match l with
  | [] => Some []
  | None :: _ => None
  | Some a :: rest =>
      match all_some rest with
      | Some rest' => Some (a :: rest')
      | None => None
      end
  end.

(** The first exception raised over the values of a column. *)
Fixpoint all_ok {A : Type} (l : list (result A)) : result (list A) :=
  match l with
  | [] => Ok []
  | Raise msg :: _ => Raise msg
  | Ok a :: rest =>
      match all_ok rest with
      | Ok rest' => Ok (a :: rest')
      | Raise msg => Raise msg
      end
  end.

Section Coercer.

(** How pandas reads a string as a number. *)
Variable str_to_numeric : string -> numeric.
(** [pd.to_datetime(x, errors='coerce')] without a format: the parsed
    timestamp, or [None] for NaT. *)
Variable to_datetime_coerce : cell -> option (datetime * tzinfo).
(** [json.dumps(x)] *)
Variable json_dumps : cell -> result string.

Definition to_numeric (c : cell) : numeric :=
  match c with
  | CInt z => NInt z
  | CBool b => NInt (if b then 1 else 0)
  | CFloat r => str_to_numeric r
  | CStr s => str_to_numeric s
  | CStamp _ _ => NNaN
  | CNull => NNaN
  end.

Definition to_json (c : cell) : result cell :=
  if isna c then Ok CNull
  else match json_dumps c with
       | Ok s => Ok (CStr s)
       | Raise msg => Raise msg
       end.

(** The body of the [try], lines 48 to 61, on the values of one column. *)
Definition convert_column (dtype : string) (cells : list cell) : result (list cell) :=
  if is_integer_family dtype then
    match all_some (map (fun c => to_Int64 (to_numeric c)) cells) with
    | Some cells' => Ok cells'
    | None => Raise unsafe_cast_msg
    end
  else if is_text_family dtype then
    Ok (map to_text cells)
  else if is_boolean_family dtype then
    Ok (map (fun c => CBool (py_bool c)) cells)
  else if is_date_family dtype then
    match all_some (map (fun c => localize_utc (to_datetime_coerce c)) cells) with
    | Some cells' => Ok cells'
    | None => Raise tz_aware_msg
    end
  else if is_json_family dtype then
    all_ok (map to_json cells)
  else Ok cells.

(** Line 65. *)
Definition coercion_error (col dtype cause : string) : string :=
  "Failed to convert column '" ++ col ++ "' to " ++ dtype ++ ": " ++ cause.

(** The loop of lines 45 to 65: the frame as the loop leaves it, and the
    message of the exception it raised, if any. *)
Fixpoint convert_loop (schema : schema_info) (df : dataframe)
  : dataframe * option string :=
  match schema with
  | [] => (df, None)
  | (col, dtype) :: rest =>
      match df_get col df with
      | None => convert_loop rest df
      | Some cells =>
          match convert_column dtype cells with
          | Ok cells' => convert_loop rest (df_set col cells' df)
          | Raise cause => (df, Some (coercion_error col dtype cause))
          end
      end
  end.

Definition convert_dataframe_dtypes (df : dataframe) (schema : schema_info)
  : dataframe * option string :=
  convert_loop schema (prepass df).

End Coercer.

(** A reading of plain decimal literals ([42], [-7], [42.0], [1.5]), the
    strings the examples below need; everything else is taken as not a
    number. *)
Module Decimal.

Definition is_digit (c : ascii) : bool :=
  Z.leb 48 (Z.of_N (N_of_ascii c)) && Z.leb (Z.of_N (N_of_ascii c)) 57.

Definition digit (c : ascii) : Z := Z.of_N (N_of_ascii c) - 48.

(** The value of a run of digits read after the value [acc], and what
    follows the run. *)
Fixpoint digits (acc : Z) (s : string) : Z * string :=
  match s with
  | String c rest => if is_digit c then digits (10 * acc + digit c) rest else (acc, s)
  | EmptyString => (acc, s)
  end.

Fixpoint all_digits (s : string) : bool :=
  match s with
  | EmptyString => true
  | String c rest => is_digit c && all_digits rest
  end.

Definition starts_with_digit (s : string) : bool :=
  match s with String c _ => is_digit c | EmptyString => false end.

Definition unsigned (s : string) : numeric :=
  if starts_with_digit s then
    match digits 0 s with
    | (n, EmptyString) => NInt n
    | (n, String "." frac) =>
        if all_digits frac
        then if Z.eqb (fst (digits 0 frac)) 0 then NInt n else NInexact
        else NNaN
    | _ => NNaN
    end
  else NNaN.

Definition negate (n : numeric) : numeric :=
  match n with NInt z => NInt (- z) | _ => n end.

Definition to_numeric (s : string) : numeric :=
  match s with
  | String "-" rest => negate (unsigned rest)
  | _ => unsigned s
  end.

End Decimal.

(** ** Datetime Normalizer *)

(** Reading a string against the format ['%m-%d-%Y %H:%M:%S'], as the
    directives' patterns match it: a month, a day, an hour, a minute and a
    second of one or two digits, a year of four, one or more blanks between
    the date and the time, and nothing before or after. *)
Module Strptime.
Import Decimal.

(** A number of one or two digits, and what follows it. *)
Definition field (s : string) : option (Z * string) :=
  match s with
  | String a (String b rest) =>
      if is_digit a then
        if is_digit b then Some (10 * digit a + digit b, rest)
        else Some (digit a, String b rest)
      else None
  | String a EmptyString => if is_digit a then Some (digit a, EmptyString) else None
  | EmptyString => None
  end.

(** [%d] also takes a blank in place of the leading zero. *)
Definition day_field (s : string) : option (Z * string) :=
  match s with
  | String " " (String b rest) =>
      if is_digit b then Some (digit b, rest) else None
  | _ => field s
  end.

Definition year_field (s : string) : option (Z * string) :=
  match s with
  | String a (String b (String c (String d rest))) =>
      if is_digit a && is_digit b && is_digit c && is_digit d
      then Some (1000 * digit a + 100 * digit b + 10 * digit c + digit d, rest)
      else None
  | _ => None
  end.

Definition expect (c : ascii) (s : string) : option string :=
  match s with
  | String a rest => if Ascii.eqb a c then Some rest else None
  | EmptyString => None
  end.

(** The ASCII characters that [\s] matches: the space, the tab to the
    carriage return, and the four separators before the space. *)
Definition is_blank (c : ascii) : bool :=
  let n := Z.of_N (N_of_ascii c) in
  Z.eqb n 32 || (Z.leb 9 n && Z.leb n 13) || (Z.leb 28 n && Z.leb n 31).

Fixpoint skip_blanks (s : string) : string :=
  match s with
  | String a rest => if is_blank a then skip_blanks rest else s
  | EmptyString => s
  end.

(** One or more blanks. *)
Definition blanks (s : string) : option string :=
  match s with
  | String a rest => if is_blank a then Some (skip_blanks rest) else None
  | EmptyString => None
  end.

Definition between (lo hi z : Z) : bool := Z.leb lo z && Z.leb z hi.

Definition is_leap (y : Z) : bool :=
  Z.eqb (y mod 4) 0 && (negb (Z.eqb (y mod 100) 0) || Z.eqb (y mod 400) 0).

Definition days_in_month (y m : Z) : Z :=
  if Z.eqb m 2 then (if is_leap y then 29 else 28)
  else if Z.eqb m 4 || Z.eqb m 6 || Z.eqb m 9 || Z.eqb m 11 then 30
  else 31.

(** Days from 1970-01-01 to a date of the proleptic Gregorian calendar. *)
Definition days_from_civil (y m d : Z) : Z :=
  let y' := if Z.leb m 2 then y - 1 else y in
  let era := y' / 400 in
  let yoe := y' - era * 400 in
  let doy := (153 * (if Z.ltb 2 m then m - 3 else m + 9) + 2) / 5 + d - 1 in
  let doe := yoe * 365 + yoe / 4 - yoe / 100 + doy in
  era * 146097 + doe - 719468.

(** The instant of a timestamp read as UTC, in seconds since the epoch. *)
Definition epoch_seconds (t : datetime) : Z :=
  days_from_civil (year t) (month t) (day t) * 86400
  + hour t * 3600 + minute t * 60 + second t.

(** A date of the calendar, a time of the day, and an instant that a
    timestamp of nanoseconds on 64 bits holds. *)
Definition valid (t : datetime) : bool :=
  between 1 9999 (year t) && between 1 12 (month t)
  && between 1 (days_in_month (year t) (month t)) (day t)
  && between 0 23 (hour t) && between 0 59 (minute t) && between 0 59 (second t)
  && between (- 9223372036) 9223372036 (epoch_seconds t).

Definition fields (s : string) : option datetime :=
  '(mo, s) ← field s;
  s ← expect "-" s;
  '(d, s) ← day_field s;
  s ← expect "-" s;
  '(y, s) ← year_field s;
  s ← blanks s;
  '(h, s) ← field s;
  s ← expect ":" s;
  '(mi, s) ← field s;
  s ← expect ":" s;
  '(sec, s) ← field s;
  match s with
  | EmptyString => Some (DateTime y mo d h mi sec)
  | _ => None
  end.

(** A timestamp written in the format, each field on its full width: the
    layout [MM-DD-YYYY HH:MM:SS]. *)
Definition digit_char (k : Z) : ascii := ascii_of_N (Z.to_N (48 + k)).

Definition two_digits (z : Z) (rest : string) : string :=
  String (digit_char (z / 10)) (String (digit_char (z mod 10)) rest).

Definition four_digits (z : Z) (rest : string) : string :=
  String (digit_char (z / 1000))
    (String (digit_char (z / 100 mod 10)) (two_digits (z mod 100) rest)).

Definition strftime (t : datetime) : string :=
  two_digits (month t) (String "-"
    (two_digits (day t) (String "-"
      (four_digits (year t) (String " "
        (two_digits (hour t) (String ":"
          (two_digits (minute t) (String ":"
            (two_digits (second t) EmptyString)))))))))).

(** The fields that the format admits: as [valid], but a second may be 60 or
    61, which [%S] takes. *)
Definition readable (t : datetime) : bool :=
  between 1 9999 (year t) && between 1 12 (month t)
  && between 1 (days_in_month (year t) (month t)) (day t)
  && between 0 23 (hour t) && between 0 59 (minute t) && between 0 61 (second t)
  && between (- 9223372036) 9223372036 (epoch_seconds t).

(** A second of 60 or 61 is carried into the minute, and from there as far
    as it goes: the fields of the instant that the fields read name. *)
Definition carry (t : datetime) : datetime :=
  if Z.leb (second t) 59 then t
  else
    let s := second t - 60 in
    if Z.ltb (minute t) 59
    then DateTime (year t) (month t) (day t) (hour t) (minute t + 1) s
    else if Z.ltb (hour t) 23
    then DateTime (year t) (month t) (day t) (hour t + 1) 0 s
    else if Z.ltb (day t) (days_in_month (year t) (month t))
    then DateTime (year t) (month t) (day t + 1) 0 0 s
    else if Z.ltb (month t) 12
    then DateTime (year t) (month t + 1) 1 0 0 s
    else DateTime (year t + 1) 1 1 0 0 s.

(** The timestamp that a text of ASCII characters reads as, or [None] when
    it does not match the format or names no instant. *)
Definition strptime (s : string) : option datetime :=
  t ← fields s;
  if readable t then Some (carry t) else None.

(** Every character of the text is an ASCII character. *)
Fixpoint is_ascii (s : string) : bool :=
  match s with
  | EmptyString => true
  | String c rest => Z.ltb (Z.of_N (N_of_ascii c)) 128 && is_ascii rest
  end.

End Strptime.

Section Normalizer.

(** The digits and the blanks that the directives of the format match are
    those of Unicode, of which [Strptime] reads the ASCII ones: how pandas
    reads, against the same format, a text that holds a character outside
    ASCII is not decided here. *)
Variable strptime_unicode : string -> option datetime.

(** A text read against the format. *)
Definition read_text (s : string) : option datetime :=
  if Strptime.is_ascii s then Strptime.strptime s else strptime_unicode s.

(** [pd.to_datetime(x, format='%m-%d-%Y %H:%M:%S', errors='coerce')] on one
    value: a timestamp passes through, a missing value is NaT, anything else
    is read from its rendering. *)
Definition to_datetime_format (c : cell) : option (datetime * tzinfo) :=
  match c with
  | CStamp d tz => Some (d, tz)
  | CNull => None
  | _ =>
      if isna c then None
      else match read_text (py_str c) with
           | Some d => Some (d, Naive)
           | None => None
           end
  end.

(** Lines 121 to 126 on one value: a naive timestamp is localized, a tagged
    one converted, NaT becomes [None]. *)
Definition normalize_cell (c : cell) : cell :=
  match to_datetime_format c with
  | Some (d, Naive) => CStamp d UTC
  | Some (d, UTC) => CStamp d UTC
  | None => CNull
  end.

(** Line 130, the exception being the [KeyError] of a column that is not in
    the frame. *)
Definition datetime_error (col : string) : string :=
  "Failed to parse datetime column '" ++ col ++ "': '" ++ col ++ "'".

Fixpoint parse_datetime_columns (df : dataframe) (column_names : list string)
  : dataframe * option string :=
  match column_names with
  | [] => (df, None)
  | name :: rest =>
      match df_get name df with
      | None => (df, Some (datetime_error name))
      | Some cells =>
          parse_datetime_columns (df_set name (map normalize_cell cells) df) rest
      end
  end.

End Normalizer.

(** ** Upsert Engine *)

(** [len(df)]: every column of a frame has the length of its first. *)
Definition nrows (df : dataframe) : nat :=
  match df with
  | [] => O
  | (_, cells) :: _ => length cells
  end.

(** The record of row [i]: each column name with the cell of that row. *)
Definition record_at (i : nat) (df : dataframe) : gmap string cell :=
  list_to_map (map (fun col : column => (fst col, nth i (snd col) CNull)) df).

(** [df.to_dict(orient='records')] *)
Definition to_dict_records (df : dataframe) : list (gmap string cell) :=
  map (fun i => record_at i df) (seq 0 (nrows df)).

(** The statement of lines 74 to 79, by its parts. *)
Record upsert_stmt := UpsertStmt {
  into_schema : string;
  into_table : string;
  insert_cols : list string;
  conflict_col : string;
  set_cols : list string
}.

Definition build_upsert (df : dataframe) (table_name unique_key schema : string)
  : upsert_stmt :=
  {| into_schema := schema;
     into_table := table_name;
     insert_cols := df_columns df;
     conflict_col := unique_key;
     set_cols := filter (fun col => col ≠ unique_key) (df_columns df) |}.

(** [', '.join(parts)] *)
Fixpoint join (parts : list string) : string :=
  match parts with
  | [] => EmptyString
  | [p] => p
  | p :: rest => p ++ ", " ++ join rest
  end.

Definition dquote : ascii := ascii_of_nat 34.

Definition quoted (s : string) : string := String dquote (s ++ String dquote EmptyString).

(** The text of the statement, up to its layout. *)
Definition sql_text (st : upsert_stmt) : string :=
  "INSERT INTO " ++ quoted (into_schema st) ++ "." ++ quoted (into_table st)
  ++ " (" ++ join (map quoted (insert_cols st)) ++ ")"
  ++ " VALUES (" ++ join (map (fun c => String ":" c) (insert_cols st)) ++ ")"
  ++ " ON CONFLICT (" ++ quoted (conflict_col st) ++ ") DO UPDATE SET "
  ++ join (map (fun c => quoted c ++ " = EXCLUDED." ++ quoted c) (set_cols st)).

(** A connection: the table as committed, and the working copy of the
    transaction that is open, if one is. *)
Record connection := Connection {
  committed : list (gmap string cell);
  working : option (list (gmap string cell))
}.

(** The message with which the parser of the database refuses a statement
    whose [SET] list is empty. *)
Definition syntax_error_msg : string := "syntax error at end of input".

(** The message of an [execute] outside a transaction (never reached: the
    source executes inside [connection.begin()]). *)
Definition no_transaction_msg : string := "no transaction is open".

(** The message of an [execute] that finds no value for a parameter. *)
Definition missing_parameter_msg (col : string) : string :=
  "A value is required for bind parameter '" ++ col ++ "'".

(** The message with which the engine wraps the cause, line 85. *)
Definition upsert_error (cause : string) : string :=
  "An error occurred during upsert: " ++ cause.

Section Engine.

(** The destination table's own checks on a proposed row (types, NOT NULL,
    CHECK): the message with which it refuses the row, if it does. *)
Variable refuses : gmap string cell -> option string.

(** The proposed row collides with an existing one on the conflict column:
    both hold the same value there, and it is not NULL. *)
Definition conflicts (key : string) (old new : gmap string cell) : bool :=
  match new !! key, old !! key with
  | Some v, Some w => negb (is_null v) && bool_decide (v = w)
  | _, _ => false
  end.

(** [DO UPDATE SET col = EXCLUDED.col] over the listed columns. *)
Definition do_update (cols : list string) (excluded old : gmap string cell)
  : gmap string cell :=
  foldr (fun col row =>
           match excluded !! col with
           | Some v => <[col := v]> row
           | None => row
           end) old cols.

(** One execution of [INSERT ... ON CONFLICT ... DO UPDATE] on a table whose
    conflict column is unique: the row that collides is updated in place,
    and without a collision the proposed row is added. *)
Definition insert_on_conflict (st : upsert_stmt) (new : gmap string cell)
    (tbl : list (gmap string cell)) : list (gmap string cell) :=
  if existsb (fun old => conflicts (conflict_col st) old new) tbl
  then map (fun old =>
              if conflicts (conflict_col st) old new
              then do_update (set_cols st) new old
              else old) tbl
  else tbl ++ [new].

(** The statement with the parameters of one record. *)
Definition exec_row (st : upsert_stmt) (new : gmap string cell)
    (tbl : list (gmap string cell)) : result (list (gmap string cell)) :=
  match set_cols st with
  | [] => Raise syntax_error_msg
  | _ :: _ =>
      match refuses new with
      | Some msg => Raise msg
      | None => Ok (insert_on_conflict st new tbl)
      end
  end.

(** [with connection.begin()]: entering, leaving normally, leaving by an
    exception. *)
Definition begin (c : connection) : connection :=
  {| committed := committed c; working := Some (committed c) |}.

Definition commit (c : connection) : connection :=
  {| committed := default (committed c) (working c); working := None |}.

Definition rollback (c : connection) : connection :=
  {| committed := committed c; working := None |}.

(** The statement for each record of a list, one after the other, on the
    working copy, up to the first that raises. *)
Fixpoint executemany (st : upsert_stmt) (records : list (gmap string cell))
    (c : connection) : connection * option string :=
  match records with
  | [] => (c, None)
  | r :: rest =>
      match working c with
      | None => (c, Some no_transaction_msg)
      | Some tbl =>
          match exec_row st r tbl with
          | Ok tbl' =>
              executemany st rest {| committed := committed c; working := Some tbl' |}
          | Raise msg => (c, Some msg)
          end
      end
  end.

(** [connection.execute(stmt, records)].  With an empty list the statement
    is executed once without parameters: it raises for the first parameter
    that it names, and, naming none, is sent as it is and refused by the
    parser. *)
Definition execute (st : upsert_stmt) (records : list (gmap string cell))
    (c : connection) : connection * option string :=
  match records with
  | [] =>
      (c, Some match insert_cols st with
               | [] => syntax_error_msg
               | col :: _ => missing_parameter_msg col
               end)
  | _ :: _ => executemany st records c
  end.

(** The function of lines 69 to 85, on the table the engine connects to:
    the table it leaves, and what the call returns or raises. *)
Definition upsert_dataframe_to_postgres (df : dataframe)
    (table_name unique_key schema : string) (tbl : list (gmap string cell))
  : list (gmap string cell) * result cell :=
  let st := build_upsert df table_name unique_key schema in
  let conn := begin {| committed := tbl; working := None |} in
  match execute st (to_dict_records df) conn with
  | (conn', None) => (committed (commit conn'), Ok CNull)
  | (conn', Some cause) => (committed (rollback conn'), Raise (upsert_error cause))
  end.

End Engine.

Arguments execute : simpl never.

(** ** Pipeline Driver *)

(** The columns that the handler hands to the normalizer, line 148. *)
Definition datetime_columns : list string :=
  ["date_hired"; "date_terminated"; "date_edited"; "date_added"; "last_login_date"].

(** What the handler returns: a dict with a [body] and, on success only, a
    [statusCode]. *)
Record response := Response {
  statusCode : option Z;
  body : string
}.

(** [json.dumps({"message": "6fr data upserted to rds successfully!"})] *)
Definition success_body : string :=
  "{" ++ quoted "message" ++ ": "
  ++ quoted "6fr data upserted to rds successfully!" ++ "}".

Definition success_response : response :=
  {| statusCode := Some 200; body := success_body |}.

(** The text published to the topic, line 95, and the message of the
    exception raised when publishing fails, line 100. *)
Definition sns_message (message : string) : string :=
  "6fr-s3-to-rds failed: " ++ message.

Definition sns_error (cause : string) : string :=
  "Failed to send SNS notification: " ++ cause.

Section Driver.

(** What the handler does not decide: the destination's checks and pandas'
    readings, as above; the frame that [retrieve_data_from_s3] returns, or
    the exception it raises; the exception of [create_db_engine], if any; the
    schema that [get_table_schema] returns, or its exception; pandas'
    reading of the dates that are not ASCII; the text of
    the environment's schema name; and whether the topic takes a message
    ([None]) or the client raises. *)
Variable refuses : gmap string cell -> option string.
Variable str_to_numeric : string -> numeric.
Variable to_datetime_coerce : cell -> option (datetime * tzinfo).
Variable json_dumps : cell -> result string.
Variable strptime_unicode : string -> option datetime.
Variable s3_object : result dataframe.
Variable db_engine : option string.
Variable table_schema : result schema_info.
Variable schema_name : string.
Variable publish : string -> option string.

(** Lines 88 to 100: the messages delivered so far with the new one, or the
    exception. *)
Definition send_sns_notification (message : string) (outbox : list string)
  : list string * option string :=
  match publish (sns_message message) with
  | None => ((outbox ++ [sns_message message])%list, None)
  | Some cause => (outbox, Some (sns_error cause))
  end.

(** The [except] clause of the handler, lines 158 to 164. *)
Definition handle_failure (tbl : list (gmap string cell)) (error_message : string)
  : list (gmap string cell) * list string * result response :=
  match send_sns_notification error_message [] with
  | (outbox, None) =>
      (tbl, outbox, Ok {| statusCode := None; body := error_message |})
  | (outbox, Some cause) => (tbl, outbox, Raise cause)
  end.

(** Lines 132 to 164, on the destination table: the table the run leaves, the
    messages it delivered to the topic, and what the handler returns or
    raises. *)
Definition lambda_handler (tbl : list (gmap string cell))
  : list (gmap string cell) * list string * result response :=
  match s3_object with
  | Raise e => handle_failure tbl e
  | Ok df =>
      match db_engine with
      | Some e => handle_failure tbl e
      | None =>
          match table_schema with
          | Raise e => handle_failure tbl e
          | Ok schema =>
              match convert_dataframe_dtypes str_to_numeric to_datetime_coerce
                      json_dumps df schema with
              | (_, Some e) => handle_failure tbl e
              | (df1, None) =>
                  match parse_datetime_columns strptime_unicode df1
                          datetime_columns with
                  | (_, Some e) => handle_failure tbl e
                  | (df2, None) =>
                      match upsert_dataframe_to_postgres refuses df2
                              "department_members" "lms_user_id" schema_name tbl with
                      | (tbl', Ok _) => (tbl', [], Ok success_response)
                      | (tbl', Raise e) => handle_failure tbl' e
                      end
                  end
              end
          end
      end
  end.

End Driver.

(** ** Column names of the first stage *)

(** The dict of [convert_column_names], lines 99 to 137 of
    [lms_to_s3_lambda.py]. *)
Definition conversion_dict : list (string * string) :=
  [("id", "lms_user_id"); ("departmentId", "department_id");
   ("firstName", "first_name"); ("middleName", "middle_name");
   ("lastName", "last_name"); ("username", "user_name");
   ("password", "password"); ("emailAddress", "email_address");
   ("externalId", "illum_id"); ("ccEmailAddresses", "cc_email_addresses");
   ("languageId", "language_id"); ("gender", "gender");
   ("address", "address"); ("address2", "address_2"); ("city", "city");
   ("provinceId", "province_id"); ("countryId", "country_id");
   ("postalCode", "postal_code"); ("phone", "phone");
   ("employeeNumber", "employee_number"); ("location", "location");
   ("jobTitle", "job_title"); ("referenceNumber", "reference_number");
   ("dateHired", "date_hired"); ("dateTerminated", "date_terminated");
   ("dateEdited", "date_edited"); ("dateAdded", "date_added");
   ("lastLoginDate", "last_login_date"); ("notes", "notes");
   ("roleIds", "role_ids"); ("activeStatus", "active_status");
   ("isLearner", "is_learner"); ("isAdmin", "is_admin");
   ("isInstructor", "is_instructor"); ("isManager", "is_manager");
   ("supervisorId", "supervisor_id"); ("hasUsername", "has_user_name")].

(** [d.get(key)] on a dict given by its items. *)
Fixpoint dict_get (key : string) (d : list (string * string)) : option string :=
  match d with
  | [] => None
  | (k, v) :: rest => if String.eqb k key then Some v else dict_get key rest
  end.

(** The new label of a column: the dict's value, or the label itself. *)
Definition rename_label (label : string) : string :=
  match dict_get label conversion_dict with
  | Some v => v
  | None => label
  end.

(** [df.rename(columns=conversion_dict)], whatever the cells hold. *)
Definition convert_column_names {A : Type} (df : list (string * list A))
  : list (string * list A) :=
  map (fun col => (rename_label (fst col), snd col)) df.

(** ** Notions used to state the properties *)

(** A cell of a nullable 64-bit integer column. *)
Definition int_or_null (c : cell) : bool :=
  match c with
  | CInt z => in_int64 z
  | CNull => true
  | _ => false
  end.

(** What one execution makes of one existing row. *)
Definition touch (st : upsert_stmt) (new old : gmap string cell) : gmap string cell :=
  if conflicts (conflict_col st) old new
  then do_update (set_cols st) new old
  else old.

(** What the executions of a list of records make of one existing row. *)
Definition touch_all (st : upsert_stmt) (records : list (gmap string cell))
    (old : gmap string cell) : gmap string cell :=
  fold_left (fun row r => touch st r row) records old.

(** The statement executed for each record of a list, refusals apart. *)
Definition run (st : upsert_stmt) (records : list (gmap string cell))
    (tbl : list (gmap string cell)) : list (gmap string cell) :=
  fold_left (fun t r => insert_on_conflict st r t) records tbl.

(** The rows of a table that hold a given value in the conflict column. *)
Definition rows_with_key (key : string) (v : cell) (tbl : list (gmap string cell))
  : list (gmap string cell) :=
  List.filter (fun row => bool_decide (row !! key = Some v)) tbl.

(** A row for the key of the record is in the table. *)
Definition present (st : upsert_stmt) (r : gmap string cell)
    (tbl : list (gmap string cell)) : Prop :=
  existsb (fun old => conflicts (conflict_col st) old r) tbl = true.

(** The record carries a key: a value that is not NULL in the conflict
    column. *)
Definition keyed (st : upsert_stmt) (r : gmap string cell) : Prop :=
  exists v, r !! conflict_col st = Some v /\ v <> CNull.

(** ** Sample data *)

(** Frames and stand-ins used to run the pass on concrete inputs: no value
    reads as a date, and the JSON text of a value is its rendering. *)
Definition no_dates (c : cell) : option (datetime * tzinfo) := None.

Definition plain_json (c : cell) : result string := Ok (py_str c).

Definition members_schema : schema_info :=
  [("lms_user_id", "INTEGER"); ("first_name", "VARCHAR(50)"); ("is_active", "BOOLEAN")].

Definition members_frame : dataframe :=
  [("lms_user_id", [CFloat "42.0"; CStr "n/a"; NaN]);
   ("first_name", [CStr "Ada"; NaN; CFloat "42.0"]);
   ("is_active", [CBool false; NaN; CStr "False"])].

(** A frame whose second schema column cannot be cast. *)
Definition broken_schema : schema_info :=
  [("first_name", "TEXT"); ("lms_user_id", "BIGINT")].

Definition broken_frame : dataframe :=
  [("lms_user_id", [CFloat "1.5"]); ("first_name", [NaN])].

Definition hired_frame : dataframe :=
  [("lms_user_id", [CInt 1; CInt 2; CInt 3]);
   ("date_hired", [CStr "03-15-2024 10:30:00"; CStr "not-a-date"; CStr "nan"])].

(** A table with one department member, and a destination that refuses the
    rows whose identifier is 5. *)
Definition refuses_five (r : gmap string cell) : option string :=
  if bool_decide (r !! "lms_user_id" = Some (CInt 5))
  then Some "new row violates check constraint"
  else None.

Definition accepts_all (r : gmap string cell) : option string := None.

(** A destination whose key column is declared NOT NULL. *)
Definition refuses_null_key (r : gmap string cell) : option string :=
  match r !! "lms_user_id" with
  | Some CNull | None => Some "null value in column violates not-null constraint"
  | Some _ => None
  end.

Definition ten_members : dataframe :=
  [("lms_user_id", map CInt [1; 2; 3; 4; 5; 6; 7; 8; 9; 10]);
   ("first_name", map CStr ["a"; "b"; "c"; "d"; "e"; "f"; "g"; "h"; "i"; "j"])].

Definition two_members : dataframe :=
  [("lms_user_id", [CInt 1; CInt 2]); ("first_name", [CStr "Ada"; CStr "Bob"])].

Definition stored_member : gmap string cell :=
  {[ "lms_user_id" := CInt 1; "first_name" := CStr "Old"; "notes" := CStr "kept" ]}.

(** The table that upserting [two_members] makes of [[stored_member]]. *)
Definition updated_members : list (gmap string cell) :=
  [ {[ "lms_user_id" := CInt 1; "first_name" := CStr "Ada"; "notes" := CStr "kept" ]};
    {[ "lms_user_id" := CInt 2; "first_name" := CStr "Bob" ]} ].

(** ** Further notions and sample data *)

(** The texts of the samples are ASCII: the reading of the others is never
    asked for. *)
Definition no_unicode (s : string) : option datetime := None.

(** The shape of a frame: its column labels, in order, each with the number
    of its rows. *)
Definition df_shape (df : dataframe) : list (string * nat) :=
  map (fun col : column => (fst col, length (snd col))) df.

(** The declared type is in none of the five families. *)
Definition no_family (dtype : string) : bool :=
  negb (is_integer_family dtype) && negb (is_text_family dtype)
  && negb (is_boolean_family dtype) && negb (is_date_family dtype)
  && negb (is_json_family dtype).

(** No two rows of the table hold the same value, NULL apart, in the key
    column. *)
Definition unique_keys (key : string) (tbl : list (gmap string cell)) : Prop :=
  forall v, v <> CNull -> (length (rows_with_key key v tbl) <= 1)%nat.

(** [json.dumps] on the values of the samples: a text that needs no escape
    between double quotes, a number as it is written, [true], [false] and
    [null]. *)
Definition quoting_json (c : cell) : result string :=
  match c with
  | CStr s => Ok (quoted s)
  | CInt z => Ok (PyStr.of_Z z)
  | CFloat r => Ok r
  | CBool true => Ok "true"
  | CBool false => Ok "false"
  | CNull => Ok "null"
  | CStamp _ _ => Raise "Object of type Timestamp is not JSON serializable"
  end.

Definition profile_schema : schema_info :=
  [("lms_user_id", "INTEGER"); ("salary", "NUMERIC(10, 2)"); ("custom_fields", "JSONB")].

Definition profile_frame : dataframe :=
  [("lms_user_id", [CInt 7; CInt 8]);
   ("salary", [CFloat "1200.0"; CFloat "950.5"]);
   ("custom_fields", [NaN; CStr "{}"]);
   ("badge", [CFloat "3.0"; NaN])].

(** A frame of the roster as the first stage names its columns. *)
Definition roster_frame : dataframe :=
  [("lms_user_id", [CInt 1]); ("first_name", [CStr "Ada"]);
   ("date_hired", [CStr "03-15-2024 10:30:00"]);
   ("date_terminated", [NaN]); ("date_edited", [NaN]);
   ("date_added", [CStr "01-02-2023 08:00:00"]); ("last_login_date", [NaN])].

Definition roster_schema : schema_info :=
  [("lms_user_id", "INTEGER"); ("first_name", "VARCHAR(50)")].

(** The frame of the API, before the first stage renames its columns. *)
Definition api_frame : dataframe :=
  [("id", [CInt 1]); ("firstName", [CStr "Ada"]); ("dateHired", [CStr "x"]);
   ("customFields.team", [CStr "blue"])].

(** A frame whose one record has no key. *)
Definition null_key_frame : dataframe :=
  [("lms_user_id", [CNull]); ("first_name", [CStr "Ada"])].

(** A frame that holds nothing but the key column. *)
Definition key_only_frame : dataframe := [("lms_user_id", [CInt 1; CInt 2])].

(** Records of [two_members], and a row that they do not name. *)
Definition other_member : gmap string cell :=
  {[ "lms_user_id" := CInt 9; "first_name" := CStr "Zoe" ]}.

(** The labels of the API that the second stage relies on, under the names
    it knows them by: its unique key and its five date columns. *)
Definition stage_two_sources : list string :=
  ["id"; "dateHired"; "dateTerminated"; "dateEdited"; "dateAdded"; "lastLoginDate"].

Definition stage_two_columns : list string := "lms_user_id" :: datetime_columns.

(** A topic that takes every message, and one whose client raises. *)
Definition topic_up (message : string) : option string := None.
Definition topic_down (message : string) : option string := Some "endpoint unreachable".

(** * Properties *)

(** A decidable fact about concrete data, settled by evaluating its decision
    procedure. *)
Ltac decide_by_computation :=
  apply (bool_decide_unpack _); vm_compute; exact I.

(** ** Python strings *)

Example replace_every_occurrence :
  PyStr.replace ".0" "" "42.0" = "42"
  /\ PyStr.replace ".0" "" "100.001.0" = "10001"
  /\ PyStr.replace ".0" "" "1e+16" = "1e+16".
Proof. repeat split; reflexivity. Qed.

Example families_by_substring :
  is_integer_family "BIGINT" = true
  /\ is_text_family "VARCHAR(255)" = true
  /\ is_boolean_family "BOOLEAN" = true
  /\ is_date_family "TIMESTAMP" = true
  /\ is_json_family "JSONB" = true
  /\ is_integer_family "SMALLINT" = false.
Proof. repeat split; reflexivity. Qed.

(** ** Frames *)

Lemma df_get_set_eq name cells df :
  is_Some (df_get name df) -> df_get name (df_set name cells df) = Some cells.
Proof.
  induction df as [|[n old] rest IH]; simpl.
  - intros [? ?]; discriminate.
  - destruct (String.eqb_spec n name) as [->|Hne]; simpl.
    + now rewrite String.eqb_refl.
    + intros H. apply String.eqb_neq in Hne. rewrite Hne. auto.
Qed.

Lemma df_get_set_ne name other cells df :
  name <> other -> df_get other (df_set name cells df) = df_get other df.
Proof.
  intros Hne. induction df as [|[n old] rest IH]; simpl; [reflexivity|].
  destruct (String.eqb_spec n name) as [->|Hn]; simpl.
  - apply String.eqb_neq in Hne. now rewrite Hne.
  - destruct (String.eqb n other); auto.
Qed.

Lemma df_get_prepass name df :
  df_get name (prepass df) = option_map (map strip_float) (df_get name df).
Proof.
  induction df as [|[n old] rest IH]; simpl; [reflexivity|].
  destruct (String.eqb n name); auto.
Qed.

Lemma elem_of_map_fst {A B : Type} (a : A) (b : B) (l : list (A * B)) :
  (a, b) ∈ l -> a ∈ map fst l.
Proof.
  rewrite !list_elem_of_In. intros H. now apply (in_map fst) in H.
Qed.

Lemma all_some_Forall2 {A B : Type} (f : A -> option B) (l : list A) (l' : list B) :
  all_some (map f l) = Some l' -> Forall2 (fun a b => f a = Some b) l l'.
Proof.
  revert l'. induction l as [|a l IH]; simpl; intros l' H.
  - injection H as <-. constructor.
  - destruct (f a) as [b|] eqn:Hfa; [|discriminate].
    destruct (all_some (map f l)) as [r|]; [|discriminate].
    injection H as <-. constructor; auto.
Qed.

Lemma all_some_None {A B : Type} (f : A -> option B) (l : list A) :
  all_some (map f l) = None -> Exists (fun a => f a = None) l.
Proof.
  induction l as [|a l IH]; simpl; [discriminate|].
  destruct (f a) as [b|] eqn:Hfa; [|intros _; now apply Exists_cons_hd].
  destruct (all_some (map f l)); [discriminate|].
  intros _. apply Exists_cons_tl. now apply IH.
Qed.

Lemma all_some_total {A B : Type} (f : A -> option B) (l : list A) :
  Forall (fun a => is_Some (f a)) l -> is_Some (all_some (map f l)).
Proof.
  induction 1 as [|a l [b Hb] _ [r Hr]]; simpl; [eauto|].
  rewrite Hb, Hr. eauto.
Qed.

Lemma Forall2_map_graph {A B : Type} (f : A -> B) (l : list A) :
  Forall2 (fun a b => b = f a) l (map f l).
Proof. induction l; simpl; constructor; auto. Qed.

(** ** Type Coercer *)

Section CoercerFacts.

Variable str_to_numeric : string -> numeric.
Variable to_datetime_coerce : cell -> option (datetime * tzinfo).
Variable json_dumps : cell -> result string.

Local Abbreviation to_numeric := (to_numeric str_to_numeric).
Local Abbreviation convert_column :=
  (convert_column str_to_numeric to_datetime_coerce json_dumps).
Local Abbreviation convert_loop :=
  (convert_loop str_to_numeric to_datetime_coerce json_dumps).
Local Abbreviation convert_dataframe_dtypes :=
  (convert_dataframe_dtypes str_to_numeric to_datetime_coerce json_dumps).

(** A pass that ends without an exception leaves alone the columns that the
    schema does not name. *)
Lemma convert_loop_frame schema : forall df df' col,
  convert_loop schema df = (df', None) ->
  col ∉ map fst schema ->
  df_get col df' = df_get col df.
Proof.
  induction schema as [|[c0 t0] rest IH]; simpl; intros df df' col Hrun Hnot.
  - now injection Hrun as <-.
  - apply not_elem_of_cons in Hnot as [Hne Hnot].
    destruct (df_get c0 df) as [cells|]; [|eauto].
    destruct (convert_column t0 cells) as [cells'|cause]; [|discriminate].
    rewrite (IH _ _ _ Hrun Hnot). now apply df_get_set_ne.
Qed.

(** A pass that ends without an exception leaves in a column that the
    schema names what the conversion of its declared type makes of it. *)
Lemma convert_loop_column schema : forall df df' col dtype cells,
  NoDup (map fst schema) ->
  (col, dtype) ∈ schema ->
  df_get col df = Some cells ->
  convert_loop schema df = (df', None) ->
  exists cells',
    convert_column dtype cells = Ok cells' /\ df_get col df' = Some cells'.
Proof.
  induction schema as [|[c0 t0] rest IH]; simpl;
    intros df df' col dtype cells Hnd Hin Hget Hrun.
  - now apply elem_of_nil in Hin.
  - apply NoDup_cons in Hnd as [Hfresh Hnd].
    apply elem_of_cons in Hin as [Heq|Hin].
    + injection Heq as -> ->. rewrite Hget in Hrun.
      destruct (convert_column t0 cells) as [cells'|cause]; [|discriminate].
      exists cells'. split; [reflexivity|].
      rewrite (convert_loop_frame _ _ _ _ Hrun Hfresh).
      apply df_get_set_eq. rewrite Hget. eauto.
    + assert (c0 <> col) as Hne.
      { intros ->. apply Hfresh.
        apply (elem_of_map_fst _ _ _ Hin). }
      destruct (df_get c0 df) as [cells0|]; [|eauto].
      destruct (convert_column t0 cells0) as [cells0'|cause]; [|discriminate].
      eapply IH; [exact Hnd|exact Hin| |exact Hrun].
      rewrite df_get_set_ne by exact Hne. exact Hget.
Qed.

(** A pass that raises stopped at one column of the schema: the columns
    before it are converted, that one is as it was, and the message names
    it, its declared type and the cause. *)
Lemma convert_loop_raise schema : forall df df' msg,
  convert_loop schema df = (df', Some msg) ->
  exists (before : schema_info) col dtype rest cells cause,
    schema = (before ++ (col, dtype) :: rest)%list
    /\ convert_loop before df = (df', None)
    /\ df_get col df' = Some cells
    /\ convert_column dtype cells = Raise cause
    /\ msg = coercion_error col dtype cause.
Proof.
  induction schema as [|[c0 t0] rest IH]; simpl; intros df df' msg Hrun.
  - discriminate.
  - destruct (df_get c0 df) as [cells|] eqn:Hget.
    + destruct (convert_column t0 cells) as [cells'|cause] eqn:Hconv.
      * destruct (IH _ _ _ Hrun)
          as (before & col & dtype & rest' & cells0 & cause & -> & Hdone & H).
        exists ((c0, t0) :: before), col, dtype, rest', cells0, cause.
        split; [reflexivity|]. split; [|exact H].
        simpl. now rewrite Hget, Hconv.
      * injection Hrun as <- <-.
        exists [], c0, t0, rest, cells, cause. simpl. auto.
    + destruct (IH _ _ _ Hrun)
        as (before & col & dtype & rest' & cells0 & cause & -> & Hdone & H).
      exists ((c0, t0) :: before), col, dtype, rest', cells0, cause.
      split; [reflexivity|]. split; [|exact H].
      simpl. now rewrite Hget.
Qed.

(** What the whole pass leaves in a column that the schema names. *)
Lemma convert_dataframe_column df schema df' col dtype cells :
  NoDup (map fst schema) ->
  (col, dtype) ∈ schema ->
  df_get col df = Some cells ->
  convert_dataframe_dtypes df schema = (df', None) ->
  exists cells',
    convert_column dtype (map strip_float cells) = Ok cells'
    /\ df_get col df' = Some cells'.
Proof.
  intros Hnd Hin Hget Hrun.
  apply (convert_loop_column _ _ _ _ _ _ Hnd Hin) with (2 := Hrun).
  rewrite df_get_prepass, Hget. reflexivity.
Qed.

End CoercerFacts.

(** C4 (as amended).  When the conversion of a column raises, the pass stops
    with a message that names that column, its declared type and the cause;
    the frame is left with the pre-pass applied and with every schema column
    before the failing one converted, the failing column itself being as it
    was when its conversion started. *)
Theorem coercion_failure_names_column
    (str_to_numeric : string -> numeric)
    (to_datetime_coerce : cell -> option (datetime * tzinfo))
    (json_dumps : cell -> result string)
    (df df' : dataframe) (schema : schema_info) (msg : string) :
  convert_dataframe_dtypes str_to_numeric to_datetime_coerce json_dumps df schema
    = (df', Some msg) ->
  exists (before : schema_info) col dtype rest cells cause,
    schema = (before ++ (col, dtype) :: rest)%list
    /\ convert_loop str_to_numeric to_datetime_coerce json_dumps before (prepass df)
       = (df', None)
    /\ df_get col df' = Some cells
    /\ convert_column str_to_numeric to_datetime_coerce json_dumps dtype cells
       = Raise cause
    /\ msg = "Failed to convert column '" ++ col ++ "' to " ++ dtype ++ ": " ++ cause.
Proof. apply convert_loop_raise. Qed.

Lemma coercion_failure_names_column_witness :
  exists (before : schema_info) col dtype rest cells cause,
    broken_schema = (before ++ (col, dtype) :: rest)%list
    /\ convert_loop Decimal.to_numeric no_dates plain_json before (prepass broken_frame)
       = ([("lms_user_id", [CStr "1.5"]); ("first_name", [CStr " "])], None)
    /\ df_get col [("lms_user_id", [CStr "1.5"]); ("first_name", [CStr " "])]
       = Some cells
    /\ convert_column Decimal.to_numeric no_dates plain_json dtype cells = Raise cause
    /\ "Failed to convert column 'lms_user_id' to BIGINT: cannot safely cast non-equivalent float64 to int64"
       = "Failed to convert column '" ++ col ++ "' to " ++ dtype ++ ": " ++ cause.
Proof.
  apply (coercion_failure_names_column Decimal.to_numeric no_dates plain_json
           broken_frame _ broken_schema).
  vm_compute. reflexivity.
Defined.

(** C4, as stated, fails: the pass raises on the second schema column and the
    frame it leaves differs from the frame it was given, the first schema
    column converted and the pre-pass applied. *)
Lemma coercion_failure_leaves_partial :
  (forall to_datetime_coerce json_dumps,
     convert_dataframe_dtypes Decimal.to_numeric to_datetime_coerce json_dumps
       broken_frame broken_schema
     = ([("lms_user_id", [CStr "1.5"]); ("first_name", [CStr " "])],
        Some "Failed to convert column 'lms_user_id' to BIGINT: cannot safely cast non-equivalent float64 to int64"))
  /\ df_get "first_name" broken_frame = Some [NaN]
  /\ [("lms_user_id", [CStr "1.5"]); ("first_name", [CStr " "])] <> broken_frame.
Proof.
  split; [|split].
  - intros dt js. vm_compute. reflexivity.
  - reflexivity.
  - discriminate.
Qed.

(** C5.  In a column that the schema declares of the integer family, a pass
    that ends without an exception leaves only 64-bit integers and NULL, and
    NULL wherever the value did not read as a number; and when the conversion
    of such a column raises, it is for a value that did read as a number (one
    that is no 64-bit integer), never for one that did not. *)
Theorem integer_column_int_or_null
    (str_to_numeric : string -> numeric)
    (to_datetime_coerce : cell -> option (datetime * tzinfo))
    (json_dumps : cell -> result string)
    (df : dataframe) (schema : schema_info) (col dtype : string) (cells : list cell) :
  NoDup (map fst schema) ->
  (col, dtype) ∈ schema ->
  is_integer_family dtype = true ->
  df_get col df = Some cells ->
  (forall df',
     convert_dataframe_dtypes str_to_numeric to_datetime_coerce json_dumps df schema
       = (df', None) ->
     exists cells',
       df_get col df' = Some cells'
       /\ Forall (fun c' => int_or_null c' = true) cells'
       /\ Forall2 (fun c c' =>
                     to_numeric str_to_numeric (strip_float c) = NNaN -> c' = CNull)
            cells cells')
  /\ (forall cause,
        convert_column str_to_numeric to_datetime_coerce json_dumps dtype
          (map strip_float cells) = Raise cause ->
        Exists (fun c => match to_numeric str_to_numeric (strip_float c) with
                         | NInt z => in_int64 z = false
                         | NInexact => True
                         | NNaN => False
                         end) cells).
Proof.
  intros Hnd Hin Hfam Hget. split.
  - intros df' Hrun.
    destruct (convert_dataframe_column _ _ _ _ _ _ _ _ _ Hnd Hin Hget Hrun)
      as (cells' & Hconv & Hget').
    exists cells'. split; [exact Hget'|].
    unfold convert_column in Hconv. rewrite Hfam in Hconv.
    destruct (all_some _) as [r|] eqn:Hall; [|discriminate].
    injection Hconv as ->. rewrite map_map in Hall.
    apply all_some_Forall2 in Hall. clear -Hall.
    induction Hall as [|c c' l l' Hc _ [IH1 IH2]]; [split; constructor|].
    split; constructor; auto.
    + destruct (to_numeric _ _) as [z| |]; simpl in Hc.
      * destruct (in_int64 z) eqn:Hz; [|discriminate].
        injection Hc as <-. exact Hz.
      * discriminate.
      * now injection Hc as <-.
    + intros Hnan. rewrite Hnan in Hc. simpl in Hc. now injection Hc.
  - intros cause Hconv.
    unfold convert_column in Hconv. rewrite Hfam, map_map in Hconv.
    destruct (all_some _) as [r|] eqn:Hall; [discriminate|].
    apply all_some_None in Hall.
    apply (Exists_impl _ _ _ Hall). intros c Hc.
    destruct (to_numeric _ (strip_float c)) as [z| |]; simpl in Hc.
    + destruct (in_int64 z); [discriminate|reflexivity].
    + exact I.
    + discriminate.
Qed.

Lemma integer_column_int_or_null_witness :
  (forall df',
     convert_dataframe_dtypes Decimal.to_numeric no_dates plain_json
       members_frame members_schema = (df', None) ->
     exists cells',
       df_get "lms_user_id" df' = Some cells'
       /\ Forall (fun c' => int_or_null c' = true) cells'
       /\ Forall2 (fun c c' =>
                     to_numeric Decimal.to_numeric (strip_float c) = NNaN -> c' = CNull)
            [CFloat "42.0"; CStr "n/a"; NaN] cells')
  /\ (forall cause,
        convert_column Decimal.to_numeric no_dates plain_json "INTEGER"
          (map strip_float [CFloat "42.0"; CStr "n/a"; NaN]) = Raise cause ->
        Exists (fun c => match to_numeric Decimal.to_numeric (strip_float c) with
                         | NInt z => in_int64 z = false
                         | NInexact => True
                         | NNaN => False
                         end) [CFloat "42.0"; CStr "n/a"; NaN]).
Proof.
  apply (integer_column_int_or_null Decimal.to_numeric no_dates plain_json
           members_frame members_schema "lms_user_id" "INTEGER").
  - decide_by_computation.
  - decide_by_computation.
  - reflexivity.
  - reflexivity.
Defined.

(** C6, at a value the pre-pass damages.  The float 1.05 renders as ["1.05"];
    the pre-pass removes the [".0"] inside it and leaves the text ["15"], which
    an integer column then takes as the integer 15.  The values of the claim's
    own examples are handled as it says: the float 42.0 becomes the text
    ["42"], and a text value is left as it is. *)
Theorem prepass_removes_inner_dot_zero :
  strip_float (CFloat "1.05") = CStr "15"
  /\ (forall to_datetime_coerce json_dumps,
        convert_dataframe_dtypes Decimal.to_numeric to_datetime_coerce json_dumps
          [("score", [CFloat "1.05"]); ("label", [CFloat "1.05"])]
          [("score", "INTEGER"); ("label", "TEXT")]
        = ([("score", [CInt 15]); ("label", [CStr "15"])], None))
  /\ strip_float (CFloat "42.0") = CStr "42"
  /\ (forall s, strip_float (CStr s) = CStr s).
Proof.
  split; [reflexivity|]. split; [|split; [reflexivity|intros s; reflexivity]].
  intros dt js. vm_compute. reflexivity.
Qed.

(** The examples of the pre-pass: the float 42.0 ends as the text ["42"] in a
    text column and as the integer 42 in an integer column. *)
Example prepass_examples :
  forall to_datetime_coerce json_dumps,
    convert_dataframe_dtypes Decimal.to_numeric to_datetime_coerce json_dumps
      [("a", [CFloat "42.0"]); ("b", [CFloat "42.0"])]
      [("a", "TEXT"); ("b", "INTEGER")]
    = ([("a", [CStr "42"]); ("b", [CInt 42])], None).
Proof. intros dt js. vm_compute. reflexivity. Qed.



(** C10.  In a column that the schema declares boolean, a pass that ends
    without an exception leaves, for each value, the boolean [bool(x)] of that
    value as the pre-pass left it, so no NULL; and the missing value NaN ends
    as [True]. *)
Theorem boolean_column_has_no_null
    (str_to_numeric : string -> numeric)
    (to_datetime_coerce : cell -> option (datetime * tzinfo))
    (json_dumps : cell -> result string)
    (df df' : dataframe) (schema : schema_info) (col dtype : string) (cells : list cell) :
  NoDup (map fst schema) ->
  (col, dtype) ∈ schema ->
  is_boolean_family dtype = true ->
  df_get col df = Some cells ->
  convert_dataframe_dtypes str_to_numeric to_datetime_coerce json_dumps df schema
    = (df', None) ->
  exists cells',
    df_get col df' = Some cells'
    /\ Forall2 (fun c c' => c' = CBool (py_bool (strip_float c))) cells cells'
    /\ Forall (fun c' => is_null c' = false) cells'
    /\ Forall2 (fun c c' => c = NaN -> c' = CBool true) cells cells'.
Proof.
  intros Hnd Hin Hfam Hget Hrun.
  destruct (convert_dataframe_column _ _ _ _ _ _ _ _ _ Hnd Hin Hget Hrun)
    as (cells' & Hconv & Hget').
  exists cells'. split; [exact Hget'|].
  unfold convert_column in Hconv.
  assert (is_integer_family dtype = false /\ is_text_family dtype = false)
    as [Hint Htext].
  { unfold is_boolean_family in Hfam.
    destruct (is_integer_family dtype), (is_text_family dtype);
      try discriminate; auto. }
  rewrite Hint, Htext, Hfam, map_map in Hconv. injection Hconv as <-.
  split; [apply Forall2_map_graph|]. split.
  - clear. induction cells; simpl; constructor; auto.
  - clear. induction cells as [|c l IH]; simpl; constructor; [|exact IH].
    now intros ->.
Qed.

Lemma boolean_column_has_no_null_witness :
  exists cells',
    df_get "is_active"
      [("lms_user_id", [CInt 42; CNull; CNull]);
       ("first_name", [CStr "Ada"; CStr " "; CStr "42"]);
       ("is_active", [CBool false; CBool true; CBool true])] = Some cells'
    /\ Forall2 (fun c c' => c' = CBool (py_bool (strip_float c)))
         [CBool false; NaN; CStr "False"] cells'
    /\ Forall (fun c' => is_null c' = false) cells'
    /\ Forall2 (fun c c' => c = NaN -> c' = CBool true)
         [CBool false; NaN; CStr "False"] cells'.
Proof.
  apply (boolean_column_has_no_null Decimal.to_numeric no_dates plain_json
           members_frame _ members_schema "is_active" "BOOLEAN").
  - decide_by_computation.
  - decide_by_computation.
  - reflexivity.
  - reflexivity.
  - vm_compute. reflexivity.
Defined.

(** ** Datetime Normalizer *)

(** *** The format *)

Lemma digit_cases k :
  0 <= k <= 9 ->
  k = 0 \/ k = 1 \/ k = 2 \/ k = 3 \/ k = 4 \/ k = 5 \/ k = 6 \/ k = 7 \/ k = 8 \/ k = 9.
Proof. lia. Qed.

Ltac each_digit k H :=
  let C := fresh in
  pose proof (digit_cases k H) as C;
  repeat (destruct C as [C|C]; [rewrite C; clear C|]); [..|rewrite C; clear C].

Lemma field_two_digits z rest :
  0 <= z <= 99 ->
  Strptime.field (Strptime.two_digits z rest) = Some (z, rest).
Proof.
  intros Hz. unfold Strptime.two_digits.
  assert (0 <= z / 10 <= 9) as Ha by (Z.div_mod_to_equations; lia).
  assert (0 <= z mod 10 <= 9) as Hb by (Z.div_mod_to_equations; lia).
  rewrite (Z.div_mod z 10) at 3 by lia.
  generalize dependent (z / 10). generalize dependent (z mod 10).
  intros b Hb a Ha.
  each_digit a Ha; each_digit b Hb; reflexivity.
Qed.

Lemma day_field_two_digits z rest :
  0 <= z <= 99 ->
  Strptime.day_field (Strptime.two_digits z rest) = Some (z, rest).
Proof.
  intros Hz. rewrite <- (field_two_digits z rest Hz).
  unfold Strptime.two_digits.
  assert (0 <= z / 10 <= 9) as Ha by (Z.div_mod_to_equations; lia).
  generalize dependent (z / 10). intros a Ha.
  each_digit a Ha; reflexivity.
Qed.

Lemma year_field_four_digits z rest :
  0 <= z <= 9999 ->
  Strptime.year_field (Strptime.four_digits z rest) = Some (z, rest).
Proof.
  intros Hz. unfold Strptime.four_digits, Strptime.two_digits.
  assert (0 <= z / 1000 <= 9) as Ha by (Z.div_mod_to_equations; lia).
  assert (0 <= z / 100 mod 10 <= 9) as Hb by (Z.div_mod_to_equations; lia).
  assert (0 <= z mod 100 / 10 <= 9) as Hc by (Z.div_mod_to_equations; lia).
  assert (0 <= z mod 100 mod 10 <= 9) as Hd by (Z.div_mod_to_equations; lia).
  assert (z = 1000 * (z / 1000) + 100 * (z / 100 mod 10)
              + 10 * (z mod 100 / 10) + z mod 100 mod 10) as Hsum
    by (Z.div_mod_to_equations; lia).
  rewrite Hsum at 5.
  generalize dependent (z / 1000). generalize dependent (z / 100 mod 10).
  generalize dependent (z mod 100 / 10). generalize dependent (z mod 100 mod 10).
  intros d Hd c Hc b Hb a Ha _.
  each_digit a Ha; each_digit b Hb; each_digit c Hc; each_digit d Hd; reflexivity.
Qed.

Lemma skip_blanks_two_digits z rest :
  0 <= z <= 99 ->
  Strptime.skip_blanks (Strptime.two_digits z rest) = Strptime.two_digits z rest.
Proof.
  intros Hz. unfold Strptime.two_digits.
  assert (0 <= z / 10 <= 9) as Ha by (Z.div_mod_to_equations; lia).
  generalize dependent (z / 10). intros a Ha.
  each_digit a Ha; reflexivity.
Qed.

(** A valid timestamp is one that the format admits, with nothing to
    carry. *)
Lemma valid_readable t :
  Strptime.valid t = true -> Strptime.readable t = true /\ Strptime.carry t = t.
Proof.
  unfold Strptime.valid, Strptime.readable, Strptime.carry, Strptime.between.
  intros H. repeat (apply andb_prop in H as [H ?]).
  repeat (apply andb_prop in H0 as [H0 ?]).
  assert (second t <= 59) as Hs by lia.
  split.
  - repeat (apply andb_true_intro; split); try assumption; lia.
  - apply Z.leb_le in Hs. now rewrite Hs.
Qed.

Lemma is_ascii_two_digits z rest :
  0 <= z <= 99 ->
  Strptime.is_ascii (Strptime.two_digits z rest) = Strptime.is_ascii rest.
Proof.
  intros Hz. unfold Strptime.two_digits.
  assert (0 <= z / 10 <= 9) as Ha by (Z.div_mod_to_equations; lia).
  assert (0 <= z mod 10 <= 9) as Hb by (Z.div_mod_to_equations; lia).
  generalize dependent (z / 10). generalize dependent (z mod 10).
  intros b Hb a Ha.
  each_digit a Ha; each_digit b Hb; reflexivity.
Qed.

Lemma is_ascii_four_digits z rest :
  0 <= z <= 9999 ->
  Strptime.is_ascii (Strptime.four_digits z rest) = Strptime.is_ascii rest.
Proof.
  intros Hz. unfold Strptime.four_digits.
  rewrite <- (is_ascii_two_digits (z mod 100) rest)
    by (Z.div_mod_to_equations; lia).
  assert (0 <= z / 1000 <= 9) as Ha by (Z.div_mod_to_equations; lia).
  assert (0 <= z / 100 mod 10 <= 9) as Hb by (Z.div_mod_to_equations; lia).
  generalize (Strptime.two_digits (z mod 100) rest).
  generalize dependent (z / 1000). generalize dependent (z / 100 mod 10).
  intros b Hb a Ha tail.
  each_digit a Ha; each_digit b Hb; reflexivity.
Qed.

Local Opaque Strptime.two_digits Strptime.four_digits.

(** The layout is written in ASCII. *)
Lemma is_ascii_strftime t :
  Strptime.valid t = true -> Strptime.is_ascii (Strptime.strftime t) = true.
Proof.
  intros Hvalid. destruct t as [y mo d h mi s].
  unfold Strptime.valid, Strptime.between in Hvalid. simpl in Hvalid.
  repeat (apply andb_prop in Hvalid as [Hvalid ?]).
  assert (d <= 31).
  { assert (Strptime.days_in_month y mo <= 31); [|lia].
    unfold Strptime.days_in_month.
    repeat match goal with |- context [if ?b then _ else _] => destruct b end; lia. }
  unfold Strptime.strftime. simpl.
  rewrite is_ascii_two_digits by lia. simpl.
  rewrite is_ascii_two_digits by lia. simpl.
  rewrite is_ascii_four_digits by lia. simpl.
  rewrite is_ascii_two_digits by lia. simpl.
  rewrite is_ascii_two_digits by lia. simpl.
  rewrite is_ascii_two_digits by lia. reflexivity.
Qed.

(** Every valid timestamp, written [MM-DD-YYYY HH:MM:SS], reads back as
    itself. *)
Lemma strptime_strftime t :
  Strptime.valid t = true -> Strptime.strptime (Strptime.strftime t) = Some t.
Proof.
  intros Hvalid. unfold Strptime.strptime.
  assert (Strptime.fields (Strptime.strftime t) = Some t) as ->.
  2:{ destruct (valid_readable t Hvalid) as [Hread Hcarry]. simpl.
      now rewrite Hread, Hcarry. }
  destruct t as [y mo d h mi s].
  unfold Strptime.valid, Strptime.between in Hvalid. simpl in Hvalid.
  repeat (apply andb_prop in Hvalid as [Hvalid ?]).
  assert (d <= 31).
  { assert (Strptime.days_in_month y mo <= 31); [|lia].
    unfold Strptime.days_in_month.
    repeat match goal with |- context [if ?b then _ else _] => destruct b end; lia. }
  unfold Strptime.fields, Strptime.strftime. simpl.
  rewrite field_two_digits by lia. simpl.
  rewrite day_field_two_digits by lia. simpl.
  rewrite year_field_four_digits by lia. simpl.
  rewrite skip_blanks_two_digits by lia. simpl.
  rewrite field_two_digits by lia. simpl.
  rewrite field_two_digits by lia. simpl.
  rewrite field_two_digits by lia. reflexivity.
Qed.

Local Transparent Strptime.two_digits Strptime.four_digits.

(** *** Renderings that are no dates *)

Lemma digit_is_no_dash c :
  Decimal.is_digit c = true -> Ascii.eqb c "-" = false.
Proof.
  destruct (Ascii.eqb_spec c "-") as [->|_]; [discriminate|reflexivity].
Qed.

(** A run of digits does not match the format, with or without a sign. *)
Lemma fields_all_digits s :
  Decimal.all_digits s = true -> Strptime.fields s = None.
Proof.
  destruct s as [|a [|b rest]]; simpl; [reflexivity| |].
  - rewrite andb_true_r. intros Ha. unfold Strptime.fields. simpl.
    now rewrite Ha.
  - intros H. apply andb_prop in H as [Ha H]. apply andb_prop in H as [Hb Hrest].
    unfold Strptime.fields. simpl. rewrite Ha, Hb. simpl.
    destruct rest as [|c rest]; [reflexivity|]. simpl in *.
    apply andb_prop in Hrest as [Hc _].
    now rewrite (digit_is_no_dash c Hc).
Qed.

Lemma fields_signed s : Strptime.fields (String "-" s) = None.
Proof. destruct s; reflexivity. Qed.

Lemma is_ascii_all_digits s :
  Decimal.all_digits s = true -> Strptime.is_ascii s = true.
Proof.
  induction s as [|c s IH]; simpl; [reflexivity|].
  intros H. apply andb_prop in H as [Hc Hs]. rewrite (IH Hs), andb_true_r.
  unfold Decimal.is_digit in Hc. apply andb_prop in Hc as [_ Hc].
  apply Z.leb_le in Hc. apply Z.ltb_lt. lia.
Qed.

Lemma all_digits_of_uint d :
  Decimal.all_digits (NilEmpty.string_of_uint d) = true.
Proof. induction d; simpl; auto. Qed.

Lemma all_digits_of_uint_zero d :
  Decimal.all_digits (NilZero.string_of_uint d) = true.
Proof.
  destruct d; try apply (all_digits_of_uint (Decimal.D0 d));
    try reflexivity; simpl; apply all_digits_of_uint.
Qed.

(** The rendering of an integer is ASCII and is no date. *)
Lemma of_Z_is_no_date z :
  Strptime.is_ascii (PyStr.of_Z z) = true /\ Strptime.strptime (PyStr.of_Z z) = None.
Proof.
  unfold PyStr.of_Z, Strptime.strptime.
  destruct (Z.to_int z) as [d|d]; simpl.
  - pose proof (all_digits_of_uint_zero d) as Hd.
    split; [now apply is_ascii_all_digits|].
    now rewrite fields_all_digits.
  - pose proof (all_digits_of_uint_zero d) as Hd.
    split; [now apply is_ascii_all_digits|].
    now rewrite fields_signed.
Qed.

(** *** Values and columns *)

Section NormalizerFacts.

Variable strptime_unicode : string -> option datetime.

Lemma normalize_cell_stamp c :
  normalize_cell strptime_unicode c = CNull \/ exists d, normalize_cell strptime_unicode c = CStamp d UTC.
Proof.
  unfold normalize_cell.
  destruct (to_datetime_format strptime_unicode c) as [[d [|]]|]; eauto.
Qed.

(** Normalizing a normalized value changes nothing. *)
Lemma normalize_cell_idem c :
  normalize_cell strptime_unicode (normalize_cell strptime_unicode c) = normalize_cell strptime_unicode c.
Proof.
  destruct (normalize_cell_stamp c) as [->|[d ->]]; reflexivity.
Qed.

Lemma normalize_cell_str s :
  normalize_cell strptime_unicode (CStr s)
  = match read_text strptime_unicode s with
    | Some d => CStamp d UTC
    | None => CNull
    end.
Proof.
  unfold normalize_cell, to_datetime_format. simpl.
  destruct (read_text strptime_unicode s); reflexivity.
Qed.

(** A float is read from its rendering, NaN apart. *)
Lemma normalize_cell_float r :
  normalize_cell strptime_unicode (CFloat r)
  = if String.eqb r "nan" then CNull
    else match read_text strptime_unicode r with
         | Some d => CStamp d UTC
         | None => CNull
         end.
Proof.
  unfold normalize_cell, to_datetime_format. simpl.
  destruct (String.eqb r "nan"); [reflexivity|].
  destruct (read_text strptime_unicode r); reflexivity.
Qed.

(** A missing value, an integer and a boolean are no dates; a timestamp
    keeps its fields. *)
Lemma normalize_cell_other c :
  (c = NaN \/ c = CNull \/ (exists z, c = CInt z) \/ (exists b, c = CBool b) ->
   normalize_cell strptime_unicode c = CNull)
  /\ (forall t tz, c = CStamp t tz -> normalize_cell strptime_unicode c = CStamp t UTC).
Proof.
  split.
  - intros [->|[->|[[z ->]|[b ->]]]]; try reflexivity.
    + unfold normalize_cell, to_datetime_format, read_text.
      simpl. destruct (of_Z_is_no_date z) as [-> ->]. reflexivity.
    + destruct b; reflexivity.
  - intros t tz ->. destruct tz; reflexivity.
Qed.

(** When every listed column is in the frame the normalizer raises nothing,
    and it leaves each listed column normalized and the other columns as they
    were. *)
Lemma parse_datetime_columns_total names : forall df,
  (forall n, n ∈ names -> is_Some (df_get n df)) ->
  exists df',
    parse_datetime_columns strptime_unicode df names = (df', None)
    /\ forall col cells,
         df_get col df = Some cells ->
         df_get col df'
         = Some (if bool_decide (col ∈ names)
                 then map (normalize_cell strptime_unicode) cells else cells).
Proof.
  induction names as [|name rest IH]; intros df Hall;
    cbn [parse_datetime_columns].
  - exists df. split; [reflexivity|]. intros col cells Hget.
    rewrite bool_decide_eq_false_2 by apply not_elem_of_nil. exact Hget.
  - destruct (Hall name) as [cells0 Hget0]; [apply elem_of_cons; auto|].
    rewrite Hget0.
    destruct (IH (df_set name (map (normalize_cell strptime_unicode) cells0) df))
      as (df' & Hrun & Hcols).
    { intros n Hn. destruct (decide (name = n)) as [<-|Hne].
      - rewrite df_get_set_eq; eauto.
      - rewrite df_get_set_ne by exact Hne. apply Hall, elem_of_cons; auto. }
    exists df'. split; [exact Hrun|]. intros col cells Hget.
    destruct (decide (name = col)) as [<-|Hne].
    + rewrite (Hcols name (map (normalize_cell strptime_unicode) cells0))
        by (apply df_get_set_eq; eauto).
      rewrite (bool_decide_eq_true_2 (name ∈ name :: rest))
        by (apply elem_of_cons; auto).
      assert (cells0 = cells) as -> by congruence.
      destruct (bool_decide (name ∈ rest)); [|reflexivity].
      rewrite map_map. f_equal. apply map_ext. intros c.
      apply normalize_cell_idem.
    + rewrite (Hcols col cells) by (rewrite df_get_set_ne; auto).
      f_equal. destruct (decide (col ∈ rest)) as [Hin|Hout].
      * rewrite !bool_decide_eq_true_2; auto. apply elem_of_cons; auto.
      * rewrite !bool_decide_eq_false_2; auto.
        intros [->|H]%elem_of_cons; auto.
Qed.

(** C8.  When the listed columns are in the frame, the normalizer raises
    nothing and leaves in each listed column, for every text value, the
    timestamp that the text reads as in the layout [MM-DD-YYYY HH:MM:SS],
    tagged UTC, and NULL when the text does not read so; every valid
    timestamp written in that layout is read back as itself, with the same
    fields; a missing value, an integer and a boolean end as NULL, a float
    is read from its rendering, and a timestamp keeps its fields and is
    tagged UTC; the column holds nothing
    but UTC timestamps and NULL.  The text ["03-15-2024 10:30:00"] becomes
    2024-03-15T10:30:00Z, the instant 1710498600 of the epoch, and
    ["not-a-date"] becomes NULL. *)
Theorem datetime_columns_normalized
    (df : dataframe) (column_names : list string) (name : string)
    (cells : list cell) :
  name ∈ column_names ->
  (forall n, n ∈ column_names -> is_Some (df_get n df)) ->
  df_get name df = Some cells ->
  exists df' cells',
    parse_datetime_columns strptime_unicode df column_names = (df', None)
    /\ df_get name df' = Some cells'
    /\ Forall2 (fun c c' =>
                  forall s, c = CStr s ->
                            c' = match (if Strptime.is_ascii s
                                        then Strptime.strptime s
                                        else strptime_unicode s) with
                                 | Some t => CStamp t UTC
                                 | None => CNull
                                 end) cells cells'
    /\ Forall2 (fun c c' =>
                  forall t, Strptime.valid t = true ->
                            c = CStr (Strptime.strftime t) ->
                            c' = CStamp t UTC) cells cells'
    /\ Forall2 (fun c c' =>
                  (c = NaN \/ c = CNull \/ (exists z, c = CInt z)
                   \/ (exists b, c = CBool b) -> c' = CNull)
                  /\ (forall t tz, c = CStamp t tz -> c' = CStamp t UTC)
                  /\ (forall r, c = CFloat r ->
                                c' = if String.eqb r "nan" then CNull
                                     else match (if Strptime.is_ascii r
                                                 then Strptime.strptime r
                                                 else strptime_unicode r) with
                                          | Some t => CStamp t UTC
                                          | None => CNull
                                          end))
         cells cells'
    /\ Forall (fun c' => c' = CNull \/ exists t, c' = CStamp t UTC) cells'
    /\ normalize_cell strptime_unicode (CStr "03-15-2024 10:30:00")
       = CStamp (DateTime 2024 3 15 10 30 0) UTC
    /\ Strptime.epoch_seconds (DateTime 2024 3 15 10 30 0) = 1710498600
    /\ normalize_cell strptime_unicode (CStr "not-a-date") = CNull.
Proof.
  intros Hin Hall Hget.
  destruct (parse_datetime_columns_total column_names df Hall)
    as (df' & Hrun & Hcols).
  exists df', (map (normalize_cell strptime_unicode) cells).
  split; [exact Hrun|]. split.
  { rewrite (Hcols name cells Hget).
    now rewrite bool_decide_eq_true_2 by exact Hin. }
  split; [|split; [|split; [|split; [|repeat split]]]].
  - clear. induction cells as [|c l IH]; simpl; constructor; [|exact IH].
    intros s ->. apply normalize_cell_str.
  - clear. induction cells as [|c l IH]; simpl; constructor; [|exact IH].
    intros t Hvalid ->. rewrite normalize_cell_str.
    unfold read_text.
    now rewrite is_ascii_strftime, strptime_strftime.
  - clear. induction cells as [|c l IH]; simpl; constructor; [|exact IH].
    destruct (normalize_cell_other c) as [Hnull Hstamp].
    split; [exact Hnull|]. split; [exact Hstamp|].
    intros r ->. apply normalize_cell_float.
  - clear. induction cells as [|c l IH]; simpl; constructor; [|exact IH].
    apply normalize_cell_stamp.
Qed.

End NormalizerFacts.

Lemma datetime_columns_normalized_witness :
  exists df' cells',
    parse_datetime_columns no_unicode hired_frame ["date_hired"] = (df', None)
    /\ df_get "date_hired" df' = Some cells'
    /\ Forall2 (fun c c' =>
                  forall s, c = CStr s ->
                            c' = match (if Strptime.is_ascii s
                                        then Strptime.strptime s
                                        else no_unicode s) with
                                 | Some t => CStamp t UTC
                                 | None => CNull
                                 end)
         [CStr "03-15-2024 10:30:00"; CStr "not-a-date"; CStr "nan"] cells'
    /\ Forall2 (fun c c' =>
                  forall t, Strptime.valid t = true ->
                            c = CStr (Strptime.strftime t) ->
                            c' = CStamp t UTC)
         [CStr "03-15-2024 10:30:00"; CStr "not-a-date"; CStr "nan"] cells'
    /\ Forall2 (fun c c' =>
                  (c = NaN \/ c = CNull \/ (exists z, c = CInt z)
                   \/ (exists b, c = CBool b) -> c' = CNull)
                  /\ (forall t tz, c = CStamp t tz -> c' = CStamp t UTC)
                  /\ (forall r, c = CFloat r ->
                                c' = if String.eqb r "nan" then CNull
                                     else match (if Strptime.is_ascii r
                                                 then Strptime.strptime r
                                                 else no_unicode r) with
                                          | Some t => CStamp t UTC
                                          | None => CNull
                                          end))
         [CStr "03-15-2024 10:30:00"; CStr "not-a-date"; CStr "nan"] cells'
    /\ Forall (fun c' => c' = CNull \/ exists t, c' = CStamp t UTC) cells'
    /\ normalize_cell no_unicode (CStr "03-15-2024 10:30:00")
       = CStamp (DateTime 2024 3 15 10 30 0) UTC
    /\ Strptime.epoch_seconds (DateTime 2024 3 15 10 30 0) = 1710498600
    /\ normalize_cell no_unicode (CStr "not-a-date") = CNull.
Proof.
  apply (datetime_columns_normalized no_unicode hired_frame ["date_hired"]
           "date_hired").
  - decide_by_computation.
  - intros n Hn. apply list_elem_of_singleton in Hn as ->. vm_compute. eauto.
  - reflexivity.
Defined.

(** The frame that the normalizer leaves of [hired_frame]. *)
Example datetime_columns_example :
  parse_datetime_columns no_unicode hired_frame ["date_hired"]
  = ([("lms_user_id", [CInt 1; CInt 2; CInt 3]);
      ("date_hired", [CStamp (DateTime 2024 3 15 10 30 0) UTC; CNull; CNull])],
     None).
Proof. vm_compute. reflexivity. Qed.

(** A listed column that is not in the frame stops the normalizer. *)
Example datetime_columns_missing :
  parse_datetime_columns no_unicode hired_frame ["date_hired"; "date_added"]
  = ([("lms_user_id", [CInt 1; CInt 2; CInt 3]);
      ("date_hired", [CStamp (DateTime 2024 3 15 10 30 0) UTC; CNull; CNull])],
     Some "Failed to parse datetime column 'date_added': 'date_added'").
Proof. vm_compute. reflexivity. Qed.

(** A second of 60 or 61 is read and carried: into the next minute, and at
    the end of a year into the next year.  A day that the month does not
    have is not read. *)
Example leap_second_is_carried :
  Strptime.strptime "03-15-2024 10:30:60" = Some (DateTime 2024 3 15 10 31 0)
  /\ Strptime.strptime "12-31-2023 23:59:61" = Some (DateTime 2024 1 1 0 0 1)
  /\ Strptime.strptime "02-29-2024 23:59:60" = Some (DateTime 2024 3 1 0 0 0)
  /\ Strptime.strptime "02-30-2024 10:30:00" = None
  /\ Strptime.strptime "03-15-2024 10:30:62" = None.
Proof. repeat split; reflexivity. Qed.

(** ** Upsert Engine *)

(** *** Rows *)

Lemma do_update_lookup_out cols (excluded old : gmap string cell) c :
  c ∉ cols -> do_update cols excluded old !! c = old !! c.
Proof.
  induction cols as [|c0 cols IH]; simpl; intros Hout; [reflexivity|].
  apply not_elem_of_cons in Hout as [Hne Hout].
  destruct (excluded !! c0); [rewrite lookup_insert_ne by auto|]; auto.
Qed.

Lemma do_update_lookup_in cols (excluded old : gmap string cell) c v :
  c ∈ cols -> excluded !! c = Some v -> do_update cols excluded old !! c = Some v.
Proof.
  induction cols as [|c0 cols IH]; simpl; intros Hin Hv.
  - now apply elem_of_nil in Hin.
  - destruct (decide (c0 = c)) as [->|Hne].
    + rewrite Hv. apply lookup_insert_eq.
    + apply elem_of_cons in Hin as [->|Hin]; [congruence|].
      destruct (excluded !! c0); [rewrite lookup_insert_ne by auto|]; auto.
Qed.

(** The update leaves the conflict column alone: it is not in the [SET] list. *)
Lemma conflicts_do_update key cols (excluded old new : gmap string cell) :
  key ∉ cols ->
  conflicts key (do_update cols excluded old) new = conflicts key old new.
Proof.
  intros Hout. unfold conflicts. now rewrite do_update_lookup_out.
Qed.

(** A second update overrides the first, when the second record binds every
    column of the [SET] list. *)
Lemma do_update_absorb cols (r r' old : gmap string cell) :
  (forall c, c ∈ cols -> is_Some (r !! c)) ->
  do_update cols r (do_update cols r' old) = do_update cols r old.
Proof.
  intros Hall. apply map_eq. intros c.
  destruct (decide (c ∈ cols)) as [Hin|Hout].
  - destruct (Hall c Hin) as [v Hv].
    now rewrite !(do_update_lookup_in _ _ _ _ _ Hin Hv).
  - now rewrite !do_update_lookup_out.
Qed.

Lemma do_update_self cols (r : gmap string cell) : do_update cols r r = r.
Proof.
  apply map_eq. intros c.
  destruct (decide (c ∈ cols)) as [Hin|Hout].
  - destruct (r !! c) as [v|] eqn:Hv.
    + now apply do_update_lookup_in.
    + induction cols as [|c0 cols IH]; simpl; [exact Hv|].
      destruct (decide (c0 = c)) as [->|Hne].
      * rewrite Hv. destruct (decide (c ∈ cols)); [auto|].
        now rewrite do_update_lookup_out.
      * apply elem_of_cons in Hin as [->|Hin]; [congruence|].
        destruct (r !! c0); [rewrite lookup_insert_ne by auto|]; auto.
  - now apply do_update_lookup_out.
Qed.

(** *** One statement *)

Section Statement.

Variable st : upsert_stmt.
Hypothesis key_not_set : conflict_col st ∉ set_cols st.

Lemma existsb_map_touch new r tbl :
  existsb (fun old => conflicts (conflict_col st) old new) (map (touch st r) tbl)
  = existsb (fun old => conflicts (conflict_col st) old new) tbl.
Proof.
  induction tbl as [|o tbl IH]; simpl; [reflexivity|]. rewrite IH. f_equal.
  unfold touch. destruct (conflicts _ o r); [|reflexivity].
  now apply conflicts_do_update.
Qed.

(** In either case the rows that were there are touched, in place. *)
Lemma insert_on_conflict_touch new tbl :
  insert_on_conflict st new tbl
  = (map (touch st new) tbl
     ++ if existsb (fun old => conflicts (conflict_col st) old new) tbl
        then [] else [new])%list.
Proof.
  unfold insert_on_conflict.
  destruct (existsb _ tbl) eqn:Hex.
  - now rewrite app_nil_r.
  - f_equal. symmetry. rewrite <- (map_id tbl) at 2. apply map_ext_in.
    intros o Ho. unfold touch.
    destruct (conflicts _ o new) eqn:Hc; [|reflexivity].
    assert (existsb (fun old => conflicts (conflict_col st) old new) tbl = true)
      by (apply existsb_exists; eauto).
    congruence.
Qed.

Lemma touch_all_app rs1 rs2 old :
  touch_all st (rs1 ++ rs2) old = touch_all st rs2 (touch_all st rs1 old).
Proof. apply fold_left_app. Qed.

Lemma conflicts_touch new r old :
  conflicts (conflict_col st) (touch st r old) new
  = conflicts (conflict_col st) old new.
Proof.
  unfold touch. destruct (conflicts _ old r); [|reflexivity].
  now apply conflicts_do_update.
Qed.

Lemma conflicts_touch_all new rs : forall old,
  conflicts (conflict_col st) (touch_all st rs old) new
  = conflicts (conflict_col st) old new.
Proof.
  unfold touch_all.
  induction rs as [|r rs IH]; simpl; intros old; [reflexivity|].
  rewrite IH. apply conflicts_touch.
Qed.

End Statement.

(** *** A batch *)

Lemma keyed_conflicts_self st r :
  keyed st r -> conflicts (conflict_col st) r r = true.
Proof.
  intros (v & Hv & Hnn). unfold conflicts. rewrite Hv.
  rewrite bool_decide_eq_true_2 by reflexivity.
  now destruct v.
Qed.

Section Batch.

Variable st : upsert_stmt.
Hypothesis key_not_set : conflict_col st ∉ set_cols st.

Let binds (r : gmap string cell) : Prop :=
  forall c, c ∈ set_cols st -> is_Some (r !! c).

(** What a list of executions makes of a row is the row itself or the last
    update alone. *)
Lemma touch_all_cases rs x :
  Forall binds rs ->
  touch_all st rs x = x
  \/ exists r, r ∈ rs /\ conflicts (conflict_col st) x r = true
               /\ touch_all st rs x = do_update (set_cols st) r x.
Proof.
  induction rs as [|r rs IH] using rev_ind; intros Hall; [now left|].
  apply Forall_app in Hall as [Hrs Hr]. apply Forall_inv in Hr.
  assert (touch_all st (rs ++ [r]) x
          = if conflicts (conflict_col st) x r
            then do_update (set_cols st) r (touch_all st rs x)
            else touch_all st rs x) as ->.
  { rewrite touch_all_app. simpl. unfold touch.
    now rewrite conflicts_touch_all by exact key_not_set. }
  destruct (conflicts _ x r) eqn:Hc.
  - right. exists r. split; [apply elem_of_app; right; apply list_elem_of_singleton; reflexivity|].
    split; [exact Hc|].
    destruct (IH Hrs) as [->|(r' & _ & _ & ->)]; [reflexivity|].
    now apply do_update_absorb.
  - destruct (IH Hrs) as [->|(r' & Hin & Hc' & ->)]; [now left|].
    right. exists r'. split; [apply elem_of_app; now left|]. now split.
Qed.

Lemma touch_after rs r x :
  Forall binds rs -> binds r ->
  conflicts (conflict_col st) x r = true ->
  touch st r (touch_all st rs x) = do_update (set_cols st) r x.
Proof.
  intros Hrs Hr Hc. unfold touch.
  rewrite conflicts_touch_all, Hc by exact key_not_set.
  destruct (touch_all_cases rs x Hrs) as [->|(r' & _ & _ & ->)]; [reflexivity|].
  now apply do_update_absorb.
Qed.

(** After the batch, executing it again changes no row. *)
Lemma run_settled post : forall pre tbl,
  Forall binds pre -> Forall binds post -> Forall (keyed st) post ->
  (forall o, o ∈ tbl -> touch_all st pre o = o) ->
  forall o, o ∈ run st post tbl -> touch_all st (pre ++ post) o = o.
Proof.
  induction post as [|r post IH]; intros pre tbl Hpre Hpost Hkeyed Hset o Ho.
  - rewrite app_nil_r. now apply Hset.
  - apply Forall_cons in Hpost as [Hr Hpost].
    apply Forall_cons in Hkeyed as [Hk Hkeyed].
    replace (pre ++ r :: post)%list with ((pre ++ [r]) ++ post)%list
      by (now rewrite <- app_assoc).
    apply (IH (pre ++ [r])%list (insert_on_conflict st r tbl)); auto.
    { apply Forall_app. split; [exact Hpre|]. now constructor. }
    clear o Ho. intros o Ho. rewrite touch_all_app. simpl.
    rewrite insert_on_conflict_touch in Ho by exact key_not_set.
    apply elem_of_app in Ho as [Ho|Ho].
    + apply list_elem_of_In, in_map_iff in Ho as (o0 & <- & Ho0).
      apply list_elem_of_In in Ho0. unfold touch at 2 3.
      destruct (conflicts _ o0 r) eqn:Hc.
      * rewrite touch_after; auto.
        -- now apply do_update_absorb.
        -- now rewrite conflicts_do_update.
      * rewrite (Hset _ Ho0). unfold touch. now rewrite Hc.
    + destruct (existsb _ tbl); [now apply elem_of_nil in Ho|].
      apply list_elem_of_singleton in Ho as ->.
      rewrite touch_after; auto using do_update_self, keyed_conflicts_self.
Qed.

Lemma present_step r r' tbl :
  present st r tbl -> present st r (insert_on_conflict st r' tbl).
Proof.
  unfold present. intros H.
  rewrite insert_on_conflict_touch, existsb_app, existsb_map_touch, H
    by exact key_not_set.
  reflexivity.
Qed.

Lemma present_self r tbl :
  keyed st r -> present st r (insert_on_conflict st r tbl).
Proof.
  intros Hk. unfold present.
  rewrite insert_on_conflict_touch, existsb_app, existsb_map_touch
    by exact key_not_set.
  destruct (existsb _ tbl); [reflexivity|]. simpl.
  now rewrite keyed_conflicts_self.
Qed.

Lemma present_run r rs : forall tbl,
  present st r tbl -> present st r (run st rs tbl).
Proof.
  induction rs as [|r' rs IH]; simpl; intros tbl H; [exact H|].
  apply IH. now apply present_step.
Qed.

Lemma present_after_run r rs : forall tbl,
  r ∈ rs -> keyed st r -> present st r (run st rs tbl).
Proof.
  induction rs as [|r' rs IH]; simpl; intros tbl Hin Hk.
  - now apply elem_of_nil in Hin.
  - apply elem_of_cons in Hin as [->|Hin].
    + apply present_run. now apply present_self.
    + now apply IH.
Qed.

(** On a table that holds a row for every key of the batch, the batch only
    touches rows. *)
Lemma run_present rs : forall tbl,
  (forall r, r ∈ rs -> present st r tbl) ->
  run st rs tbl = map (touch_all st rs) tbl.
Proof.
  induction rs as [|r rs IH]; simpl; intros tbl Hall.
  - symmetry. apply map_id.
  - rewrite insert_on_conflict_touch by exact key_not_set.
    assert (present st r tbl) as Hr by (apply Hall, elem_of_cons; auto).
    unfold present in Hr. rewrite Hr, app_nil_r.
    rewrite IH.
    + rewrite map_map. reflexivity.
    + intros r' Hr'. unfold present.
      rewrite existsb_map_touch by exact key_not_set.
      apply Hall, elem_of_cons. auto.
Qed.

(** Idempotence of the batch on the rows. *)
Lemma run_idempotent rs tbl :
  Forall binds rs -> Forall (keyed st) rs ->
  run st rs (run st rs tbl) = run st rs tbl.
Proof.
  intros Hb Hk. rewrite run_present.
  - rewrite <- (map_id (run st rs tbl)) at 2. apply map_ext_in.
    intros o Ho. apply list_elem_of_In in Ho.
    apply (run_settled rs [] tbl); auto.
  - intros r Hr. apply present_after_run; [exact Hr|].
    rewrite Forall_forall in Hk. now apply Hk.
Qed.

End Batch.

(** *** Records and statements built from a frame *)

Lemma lookup_map {A B : Type} (f : A -> B) (l : list A) (i : nat) :
  map f l !! i = option_map f (l !! i).
Proof.
  revert i. induction l as [|a l IH]; intros [|i]; simpl; auto.
Qed.

Lemma record_at_binds i df c :
  c ∈ df_columns df -> is_Some (record_at i df !! c).
Proof.
  intros Hin. unfold record_at.
  destruct (list_to_map _ !! c) as [v|] eqn:Hv; [eauto|].
  apply not_elem_of_list_to_map in Hv. exfalso. apply Hv. clear Hv.
  unfold df_columns in Hin.
  induction df as [|[n cells] df IH]; simpl in *.
  - now apply elem_of_nil in Hin.
  - apply elem_of_cons in Hin as [->|Hin]; apply elem_of_cons; auto.
Qed.

Lemma record_at_unbound i df c :
  c ∉ df_columns df -> record_at i df !! c = None.
Proof.
  intros Hout. unfold record_at. apply not_elem_of_list_to_map.
  intros Hin. apply Hout. clear Hout. unfold df_columns.
  induction df as [|[n cells] df IH]; simpl in *.
  - now apply elem_of_nil in Hin.
  - apply elem_of_cons in Hin as [->|Hin]; apply elem_of_cons; auto.
Qed.

Lemma to_dict_records_at df r :
  r ∈ to_dict_records df -> exists i, r = record_at i df.
Proof.
  unfold to_dict_records. intros Hin.
  apply list_elem_of_In, in_map_iff in Hin as (i & <- & _). eauto.
Qed.

Lemma build_upsert_key_not_set df table_name unique_key schema :
  conflict_col (build_upsert df table_name unique_key schema)
  ∉ set_cols (build_upsert df table_name unique_key schema).
Proof.
  simpl. intros Hin. apply list_elem_of_filter in Hin as [Hne _]. now apply Hne.
Qed.

Lemma build_upsert_set_cols df table_name unique_key schema c :
  c ∈ set_cols (build_upsert df table_name unique_key schema)
  <-> c ∈ df_columns df /\ c <> unique_key.
Proof. simpl. rewrite list_elem_of_filter. tauto. Qed.

Lemma build_upsert_binds df table_name unique_key schema :
  Forall (fun r => forall c,
            c ∈ set_cols (build_upsert df table_name unique_key schema) ->
            is_Some (r !! c))
         (to_dict_records df).
Proof.
  apply Forall_forall. intros r Hr c Hc.
  apply to_dict_records_at in Hr as [i ->].
  apply build_upsert_set_cols in Hc as [Hc _]. now apply record_at_binds.
Qed.

(** *** The transaction *)

Section Transaction.

Variable refuses : gmap string cell -> option string.
Variable st : upsert_stmt.

Lemma executemany_committed rs : forall c,
  committed (fst (executemany refuses st rs c)) = committed c.
Proof.
  induction rs as [|r rs IH]; simpl; intros c; [reflexivity|].
  destruct (working c) as [tbl|]; [|reflexivity].
  destruct (exec_row refuses st r tbl) as [tbl'|msg]; [|reflexivity].
  now rewrite IH.
Qed.

Lemma executemany_ok rs : forall base tbl c',
  executemany refuses st rs {| committed := base; working := Some tbl |} = (c', None) ->
  c' = {| committed := base; working := Some (run st rs tbl) |}
  /\ Forall (fun r => refuses r = None) rs.
Proof.
  induction rs as [|r rs IH]; simpl; intros base tbl c' Hrun.
  - injection Hrun as <-. auto.
  - unfold exec_row in Hrun. destruct (set_cols st) eqn:Hset; [discriminate|].
    destruct (refuses r) eqn:Hr; [discriminate|].
    apply IH in Hrun as [-> Hall]. split; [reflexivity|]. now constructor.
Qed.

Lemma executemany_outcome rs : forall base tbl base' tbl',
  snd (executemany refuses st rs {| committed := base; working := Some tbl |})
  = snd (executemany refuses st rs {| committed := base'; working := Some tbl' |}).
Proof.
  induction rs as [|r rs IH]; simpl; intros base tbl base' tbl'; [reflexivity|].
  unfold exec_row. destruct (set_cols st); [reflexivity|].
  destruct (refuses r); [reflexivity|]. apply IH.
Qed.

Lemma executemany_refused rs : forall base tbl,
  Exists (fun r => is_Some (refuses r)) rs ->
  exists cause,
    snd (executemany refuses st rs {| committed := base; working := Some tbl |})
    = Some cause
    /\ (cause = syntax_error_msg
        \/ exists r, r ∈ rs /\ refuses r = Some cause).
Proof.
  induction rs as [|r rs IH]; simpl; intros base tbl Hex.
  - now apply Exists_nil in Hex.
  - unfold exec_row. destruct (set_cols st); [eauto|].
    destruct (refuses r) as [msg|] eqn:Hr.
    + exists msg. split; [reflexivity|]. right. exists r.
      split; [apply elem_of_cons; auto|exact Hr].
    + apply Exists_cons in Hex as [[? Hs]|Hex]; [congruence|].
      destruct (IH base (insert_on_conflict st r tbl) Hex) as (cause & Hc & Hwhy).
      exists cause. split; [exact Hc|].
      destruct Hwhy as [->|(r' & Hin & Hr')]; [now left|].
      right. exists r'. split; [apply elem_of_cons; auto|exact Hr'].
Qed.

(** Executing never touches what is committed. *)
Lemma execute_committed rs c :
  committed (fst (execute refuses st rs c)) = committed c.
Proof.
  destruct rs as [|r rs]; [reflexivity|]. apply executemany_committed.
Qed.

(** An execution that raises nothing ran the statement for every record, and
    no record was refused. *)
Lemma execute_ok rs base tbl c' :
  execute refuses st rs {| committed := base; working := Some tbl |} = (c', None) ->
  c' = {| committed := base; working := Some (run st rs tbl) |}
  /\ Forall (fun r => refuses r = None) rs.
Proof.
  destruct rs as [|r rs]; [discriminate|]. apply executemany_ok.
Qed.

(** Whether an execution raises, and with what, does not depend on the
    table. *)
Lemma execute_outcome rs base tbl base' tbl' :
  snd (execute refuses st rs {| committed := base; working := Some tbl |})
  = snd (execute refuses st rs {| committed := base'; working := Some tbl' |}).
Proof.
  destruct rs as [|r rs]; [reflexivity|]. apply executemany_outcome.
Qed.

(** An execution over a refused record raises, with the message of the
    parser or of a refusal. *)
Lemma execute_refused rs base tbl :
  Exists (fun r => is_Some (refuses r)) rs ->
  exists cause,
    snd (execute refuses st rs {| committed := base; working := Some tbl |})
    = Some cause
    /\ (cause = syntax_error_msg
        \/ exists r, r ∈ rs /\ refuses r = Some cause).
Proof.
  destruct rs as [|r rs]; [intros H; now apply Exists_nil in H|].
  apply executemany_refused.
Qed.

End Transaction.

(** *** The engine *)

(** The two ways a call ends: every record executed and the working copy
    committed, or the table as it was and the cause wrapped. *)
Lemma upsert_outcome refuses df table_name unique_key schema tbl :
  let st := build_upsert df table_name unique_key schema in
  match snd (execute refuses st (to_dict_records df)
               {| committed := tbl; working := Some tbl |}) with
  | None =>
      upsert_dataframe_to_postgres refuses df table_name unique_key schema tbl
      = (run st (to_dict_records df) tbl, Ok CNull)
      /\ Forall (fun r => refuses r = None) (to_dict_records df)
  | Some cause =>
      upsert_dataframe_to_postgres refuses df table_name unique_key schema tbl
      = (tbl, Raise (upsert_error cause))
  end.
Proof.
  intros st. unfold upsert_dataframe_to_postgres, begin. simpl committed.
  fold st.
  pose proof (execute_committed refuses st (to_dict_records df)
                {| committed := tbl; working := Some tbl |}) as Hcommitted.
  destruct (execute refuses st (to_dict_records df) _) as [c' [cause|]] eqn:Hrun;
    simpl in *.
  - now rewrite Hcommitted.
  - apply execute_ok in Hrun as [-> Hall]. simpl. auto.
Qed.

(** C1.  When the destination refuses a record of the batch, the call raises
    the error that wraps the cause (the refusal, or the parser's message for
    a statement that sets no column), and it leaves the table exactly as it
    was: nothing of what the records before the refused one wrote to the
    transaction is kept. *)
Theorem upsert_is_atomic
    (refuses : gmap string cell -> option string) (df : dataframe)
    (table_name unique_key schema : string) (tbl : list (gmap string cell)) :
  Exists (fun r => is_Some (refuses r)) (to_dict_records df) ->
  exists cause,
    upsert_dataframe_to_postgres refuses df table_name unique_key schema tbl
    = (tbl, Raise ("An error occurred during upsert: " ++ cause))
    /\ (cause = syntax_error_msg
        \/ exists r, r ∈ to_dict_records df /\ refuses r = Some cause).
Proof.
  intros Hex.
  pose proof (upsert_outcome refuses df table_name unique_key schema tbl) as Hout.
  destruct (execute_refused refuses
              (build_upsert df table_name unique_key schema)
              (to_dict_records df) tbl tbl Hex) as (cause & Hcause & Hwhy).
  simpl in Hout. rewrite Hcause in Hout. eauto.
Qed.

Lemma upsert_is_atomic_witness :
  exists cause,
    upsert_dataframe_to_postgres refuses_five ten_members
      "department_members" "lms_user_id" "public" [stored_member]
    = ([stored_member], Raise ("An error occurred during upsert: " ++ cause))
    /\ (cause = syntax_error_msg
        \/ exists r, r ∈ to_dict_records ten_members /\ refuses_five r = Some cause).
Proof.
  apply (upsert_is_atomic refuses_five ten_members
           "department_members" "lms_user_id" "public" [stored_member]).
  do 4 apply Exists_cons_tl. apply Exists_cons_hd.
  vm_compute. eauto.
Defined.

(** Whatever makes the call raise, the table is left as it was and the
    message wraps the cause. *)
Lemma upsert_raise_leaves_table
    (refuses : gmap string cell -> option string) (df : dataframe)
    (table_name unique_key schema : string) (tbl tbl' : list (gmap string cell))
    (msg : string) :
  upsert_dataframe_to_postgres refuses df table_name unique_key schema tbl
    = (tbl', Raise msg) ->
  tbl' = tbl /\ exists cause, msg = upsert_error cause.
Proof.
  intros Hcall.
  pose proof (upsert_outcome refuses df table_name unique_key schema tbl) as Hout.
  simpl in Hout. destruct (snd (execute _ _ _ _)) as [cause|].
  - rewrite Hout in Hcall. injection Hcall as <- <-. eauto.
  - destruct Hout as [Hout _]. rewrite Hout in Hcall. discriminate.
Qed.

(** Row 5 of 10 refused: when the statement raises, the working copy holds
    what the first four records wrote, and the call leaves none of it. *)
Example rollback_discards_four_rows :
  let st := build_upsert ten_members "department_members" "lms_user_id" "public" in
  let stopped :=
    execute refuses_five st (to_dict_records ten_members)
      (begin {| committed := [stored_member]; working := None |}) in
  option_map (@length _) (working (fst stopped)) = Some 4%nat
  /\ snd stopped = Some "new row violates check constraint"
  /\ upsert_dataframe_to_postgres refuses_five ten_members
       "department_members" "lms_user_id" "public" [stored_member]
     = ([stored_member],
        Raise "An error occurred during upsert: new row violates check constraint").
Proof. vm_compute. repeat split; reflexivity. Qed.

(** C9 (as amended).  A call that succeeds returns [None]: the function has
    no [return], and reports the success only in the log. *)
Theorem upsert_returns_none
    (refuses : gmap string cell -> option string) (df : dataframe)
    (table_name unique_key schema : string) (tbl tbl' : list (gmap string cell))
    (ret : cell) :
  upsert_dataframe_to_postgres refuses df table_name unique_key schema tbl
    = (tbl', Ok ret) ->
  ret = CNull.
Proof.
  intros Hcall.
  pose proof (upsert_outcome refuses df table_name unique_key schema tbl) as Hout.
  simpl in Hout. destruct (snd (execute _ _ _ _)) as [cause|].
  - rewrite Hout in Hcall. discriminate.
  - destruct Hout as [Hout _]. rewrite Hout in Hcall. now injection Hcall.
Qed.

Lemma upsert_returns_none_witness :
  upsert_dataframe_to_postgres accepts_all two_members
    "department_members" "lms_user_id" "public" [stored_member]
  = (updated_members, Ok CNull)
  /\ CNull = CNull.
Proof.
  split; [vm_compute; reflexivity|].
  apply (upsert_returns_none accepts_all two_members
           "department_members" "lms_user_id" "public" [stored_member]
           updated_members).
  vm_compute. reflexivity.
Defined.

(** C9, as stated, fails: a call that writes two records succeeds and returns
    [None], not the number 2. *)
Lemma upsert_returns_no_count :
  length (to_dict_records two_members) = 2%nat
  /\ snd (upsert_dataframe_to_postgres accepts_all two_members
            "department_members" "lms_user_id" "public" [stored_member])
     = Ok CNull
  /\ Ok CNull <> Ok (CInt 2).
Proof.
  split; [reflexivity|]. split; [vm_compute; reflexivity|discriminate].
Qed.

(** C2 (as amended).  When every record of the batch that the destination
    accepts carries a key, a value that is not NULL in the unique-key column
    (so when every record of the batch carries one, or when the destination
    refuses those that do not), a second call with the same batch ends as
    the first did and leaves the table that the first left: no row is
    added, none is changed. *)
Theorem upsert_is_idempotent
    (refuses : gmap string cell -> option string) (df : dataframe)
    (table_name unique_key schema : string) (tbl : list (gmap string cell)) :
  (forall r, r ∈ to_dict_records df -> refuses r = None ->
             exists v, r !! unique_key = Some v /\ v <> CNull) ->
  upsert_dataframe_to_postgres refuses df table_name unique_key schema
    (fst (upsert_dataframe_to_postgres refuses df table_name unique_key schema tbl))
  = upsert_dataframe_to_postgres refuses df table_name unique_key schema tbl
  /\ length (fst (upsert_dataframe_to_postgres refuses df table_name unique_key schema
                    (fst (upsert_dataframe_to_postgres refuses df table_name
                            unique_key schema tbl))))
     = length (fst (upsert_dataframe_to_postgres refuses df table_name unique_key
                      schema tbl)).
Proof.
  intros Hkey.
  set (st := build_upsert df table_name unique_key schema).
  set (rs := to_dict_records df).
  assert (upsert_dataframe_to_postgres refuses df table_name unique_key schema
            (fst (upsert_dataframe_to_postgres refuses df table_name unique_key
                    schema tbl))
          = upsert_dataframe_to_postgres refuses df table_name unique_key schema tbl)
    as Hsame; [|now rewrite Hsame].
  pose proof (upsert_outcome refuses df table_name unique_key schema tbl) as Hout.
  simpl in Hout. fold st rs in Hout.
  destruct (snd (execute refuses st rs _)) as [cause|] eqn:Hfirst.
  - rewrite Hout. simpl. exact Hout.
  - destruct Hout as [Hout Haccepted]. rewrite Hout. simpl fst.
    pose proof (upsert_outcome refuses df table_name unique_key schema
                  (run st rs tbl)) as Hagain.
    simpl in Hagain. fold st rs in Hagain.
    rewrite (execute_outcome refuses st rs _ _ tbl tbl), Hfirst in Hagain.
    destruct Hagain as [-> _]. f_equal.
    apply run_idempotent.
    + apply build_upsert_key_not_set.
    + apply build_upsert_binds.
    + apply Forall_forall. intros r Hr.
      rewrite Forall_forall in Haccepted. apply Hkey; [exact Hr|].
      apply Haccepted, Hr.
Qed.

Lemma upsert_is_idempotent_witness :
  upsert_dataframe_to_postgres accepts_all two_members
    "department_members" "lms_user_id" "public"
    (fst (upsert_dataframe_to_postgres accepts_all two_members
            "department_members" "lms_user_id" "public" [stored_member]))
  = upsert_dataframe_to_postgres accepts_all two_members
      "department_members" "lms_user_id" "public" [stored_member]
  /\ length (fst (upsert_dataframe_to_postgres accepts_all two_members
                    "department_members" "lms_user_id" "public"
                    (fst (upsert_dataframe_to_postgres accepts_all two_members
                            "department_members" "lms_user_id" "public"
                            [stored_member]))))
     = length (fst (upsert_dataframe_to_postgres accepts_all two_members
                      "department_members" "lms_user_id" "public" [stored_member])).
Proof.
  apply (upsert_is_idempotent accepts_all two_members
           "department_members" "lms_user_id" "public" [stored_member]).
  intros r Hr _. unfold to_dict_records in Hr. simpl in Hr.
  apply elem_of_cons in Hr as [->|Hr]; [exists (CInt 1); split; [reflexivity|discriminate]|].
  apply list_elem_of_singleton in Hr as ->.
  exists (CInt 2). split; [reflexivity|discriminate].
Defined.

(** C2, as stated, fails: a record whose key is NULL collides with no row,
    and a destination that takes it adds it again at each call.  The first
    call leaves one row, the second call with the same batch leaves two. *)
Lemma upsert_null_key_repeats :
  upsert_dataframe_to_postgres accepts_all null_key_frame
    "department_members" "lms_user_id" "public" []
  = ([record_at 0 null_key_frame], Ok CNull)
  /\ upsert_dataframe_to_postgres accepts_all null_key_frame
       "department_members" "lms_user_id" "public" [record_at 0 null_key_frame]
     = ([record_at 0 null_key_frame; record_at 0 null_key_frame], Ok CNull)
  /\ [record_at 0 null_key_frame; record_at 0 null_key_frame]
     <> [record_at 0 null_key_frame].
Proof.
  split; [vm_compute; reflexivity|]. split; [vm_compute; reflexivity|].
  discriminate.
Qed.

(** The same holds of a destination that refuses every record without a
    key. *)
Example upsert_is_idempotent_under_not_null :
  forall df table_name schema tbl,
    upsert_dataframe_to_postgres refuses_null_key df table_name "lms_user_id" schema
      (fst (upsert_dataframe_to_postgres refuses_null_key df table_name
              "lms_user_id" schema tbl))
    = upsert_dataframe_to_postgres refuses_null_key df table_name "lms_user_id"
        schema tbl.
Proof.
  intros df table_name schema tbl.
  assert (forall r, r ∈ to_dict_records df -> refuses_null_key r = None ->
                    exists v, r !! "lms_user_id" = Some v /\ v <> CNull) as Hkey.
  { intros r _. unfold refuses_null_key.
    destruct (r !! "lms_user_id") as [v|]; [|discriminate].
    destruct v; try discriminate; eauto. }
  pose proof (upsert_outcome refuses_null_key df table_name "lms_user_id" schema tbl)
    as Hout.
  simpl in Hout.
  destruct (snd (execute refuses_null_key _ _ _)) as [cause|] eqn:Hfirst.
  - rewrite Hout. simpl. exact Hout.
  - destruct Hout as [Hout Haccepted]. rewrite Hout. simpl fst.
    pose proof (upsert_outcome refuses_null_key df table_name "lms_user_id" schema
                  (run (build_upsert df table_name "lms_user_id" schema)
                     (to_dict_records df) tbl)) as Hagain.
    simpl in Hagain.
    rewrite (execute_outcome refuses_null_key _ _ _ _ tbl tbl), Hfirst in Hagain.
    destruct Hagain as [-> _]. f_equal.
    apply run_idempotent.
    + apply build_upsert_key_not_set.
    + apply build_upsert_binds.
    + apply Forall_forall. intros r Hr.
      rewrite Forall_forall in Haccepted. apply Hkey; [exact Hr|].
      apply Haccepted, Hr.
Qed.

(** *** Rows that were in the table *)

Section InPlace.

Variable st : upsert_stmt.
Hypothesis key_not_set : conflict_col st ∉ set_cols st.

(** A batch leaves each row of the table at its place, touched. *)
Lemma run_lookup rs : forall tbl i old,
  tbl !! i = Some old -> run st rs tbl !! i = Some (touch_all st rs old).
Proof.
  induction rs as [|r rs IH]; simpl; intros tbl i old Hi; [exact Hi|].
  apply IH. rewrite insert_on_conflict_touch.
  rewrite lookup_app_l.
  - now rewrite lookup_map, Hi.
  - rewrite length_map. now apply lookup_lt_Some in Hi.
Qed.

Lemma touch_all_none rs : forall row,
  Forall (fun r => conflicts (conflict_col st) row r = false) rs ->
  touch_all st rs row = row.
Proof.
  unfold touch_all.
  induction rs as [|r rs IH]; simpl; intros row Hall; [reflexivity|].
  apply Forall_cons in Hall as [Hr Hall].
  unfold touch at 2. rewrite Hr. now apply IH.
Qed.

(** A row ends as updated by the last record of the batch that carries its
    key. *)
Lemma touch_all_last pre r post old :
  Forall (fun r' => forall c, c ∈ set_cols st -> is_Some (r' !! c))
         (pre ++ r :: post) ->
  conflicts (conflict_col st) old r = true ->
  Forall (fun r' => conflicts (conflict_col st) old r' = false) post ->
  touch_all st (pre ++ r :: post) old = do_update (set_cols st) r old.
Proof.
  intros Hbinds Hc Hpost.
  apply Forall_app in Hbinds as [Hpre Hrest].
  apply Forall_cons in Hrest as [Hr _].
  rewrite touch_all_app.
  change (touch_all st (r :: post) ?x) with (touch_all st post (touch st r x)).
  rewrite touch_after by assumption.
  apply touch_all_none.
  apply (Forall_impl _ _ _ Hpost). intros r' Hr'.
  now rewrite conflicts_do_update.
Qed.

Lemma rows_with_key_touch v r tbl :
  rows_with_key (conflict_col st) v (map (touch st r) tbl)
  = map (touch st r) (rows_with_key (conflict_col st) v tbl).
Proof.
  unfold rows_with_key.
  induction tbl as [|o tbl IH]; simpl; [reflexivity|].
  assert (touch st r o !! conflict_col st = o !! conflict_col st) as ->.
  { unfold touch. destruct (conflicts _ o r); [|reflexivity].
    now apply do_update_lookup_out. }
  destruct (bool_decide _); simpl; now rewrite IH.
Qed.

(** One execution adds no row for a key that the table already holds. *)
Lemma rows_with_key_step v r tbl :
  v <> CNull ->
  rows_with_key (conflict_col st) v tbl <> [] ->
  length (rows_with_key (conflict_col st) v (insert_on_conflict st r tbl))
  = length (rows_with_key (conflict_col st) v tbl).
Proof.
  intros Hv Hsome. rewrite insert_on_conflict_touch.
  unfold rows_with_key at 1. rewrite List.filter_app.
  fold (rows_with_key (conflict_col st) v (map (touch st r) tbl)).
  rewrite rows_with_key_touch, length_app, length_map.
  destruct (existsb _ tbl) eqn:Hex; simpl; [lia|].
  destruct (bool_decide_reflect (r !! conflict_col st = Some v)) as [Hr|_];
    simpl; [|lia].
  exfalso. destruct (rows_with_key _ v tbl) as [|o rest] eqn:Hrows; [auto|].
  assert (In o (rows_with_key (conflict_col st) v tbl)) as Ho
    by (rewrite Hrows; now left).
  apply filter_In in Ho as [Ho Hkey]. apply bool_decide_eq_true in Hkey.
  assert (existsb (fun old => conflicts (conflict_col st) old r) tbl = true).
  { apply existsb_exists. exists o. split; [exact Ho|].
    unfold conflicts. rewrite Hr, Hkey.
    rewrite bool_decide_eq_true_2 by reflexivity. now destruct v. }
  congruence.
Qed.

Lemma rows_with_key_run v rs : forall tbl,
  v <> CNull ->
  rows_with_key (conflict_col st) v tbl <> [] ->
  length (rows_with_key (conflict_col st) v (run st rs tbl))
  = length (rows_with_key (conflict_col st) v tbl).
Proof.
  induction rs as [|r rs IH]; simpl; intros tbl Hv Hsome; [reflexivity|].
  pose proof (rows_with_key_step v r tbl Hv Hsome) as Hstep.
  rewrite IH; [exact Hstep|exact Hv|].
  intros Hnil. rewrite Hnil in Hstep. simpl in Hstep.
  destruct (rows_with_key _ v tbl); [auto|discriminate].
Qed.

End InPlace.

(** C3.  A call that succeeds leaves each row whose key a record of the batch
    carries at its place in the table, with the key it had, with every other
    column of the batch set to the value of that record (the last of the
    batch with that key, when several carry it) and with the columns that
    are not in the batch as they were; and the table holds as many rows with
    that key as before: none was inserted for it. *)
Theorem upsert_updates_in_place
    (refuses : gmap string cell -> option string) (df : dataframe)
    (table_name unique_key schema : string) (tbl tbl' : list (gmap string cell))
    (ret v : cell) (i : nat) (old r : gmap string cell)
    (pre post : list (gmap string cell)) :
  upsert_dataframe_to_postgres refuses df table_name unique_key schema tbl
    = (tbl', Ok ret) ->
  to_dict_records df = (pre ++ r :: post)%list ->
  r !! unique_key = Some v ->
  v <> CNull ->
  Forall (fun r' => r' !! unique_key <> Some v) post ->
  tbl !! i = Some old ->
  old !! unique_key = Some v ->
  exists row,
    tbl' !! i = Some row
    /\ row !! unique_key = Some v
    /\ (forall c, c ∈ df_columns df -> c <> unique_key -> row !! c = r !! c)
    /\ (forall c, c ∉ df_columns df -> row !! c = old !! c)
    /\ length (rows_with_key unique_key v tbl')
       = length (rows_with_key unique_key v tbl).
Proof.
  intros Hcall Hsplit Hr Hv Hpost Hi Hold.
  set (st := build_upsert df table_name unique_key schema).
  pose proof (build_upsert_key_not_set df table_name unique_key schema) as Hkns.
  pose proof (build_upsert_binds df table_name unique_key schema) as Hbinds.
  fold st in Hkns, Hbinds.
  pose proof (upsert_outcome refuses df table_name unique_key schema tbl) as Hout.
  simpl in Hout. fold st in Hout.
  destruct (snd (execute refuses st _ _)) as [cause|].
  { rewrite Hout in Hcall. discriminate. }
  destruct Hout as [Hout _]. rewrite Hout in Hcall.
  injection Hcall as <- _.
  assert (conflicts unique_key old r = true) as Hc.
  { unfold conflicts. rewrite Hr, Hold.
    rewrite bool_decide_eq_true_2 by reflexivity. now destruct v. }
  exists (do_update (set_cols st) r old).
  split; [|split; [|split; [|split]]].
  - rewrite (run_lookup st _ tbl i old Hi). f_equal.
    rewrite Hsplit in *. apply touch_all_last; auto.
    apply (Forall_impl _ _ _ Hpost). intros r' Hr'.
    unfold conflicts. simpl. rewrite Hold.
    destruct (r' !! unique_key) as [w|]; [|reflexivity].
    destruct (bool_decide_reflect (w = v)) as [->|_]; [congruence|].
    apply andb_false_r.
  - rewrite do_update_lookup_out by exact Hkns. exact Hold.
  - intros c Hc1 Hc2.
    assert (c ∈ set_cols st) as Hset by (now apply build_upsert_set_cols).
    rewrite Forall_forall in Hbinds.
    destruct (Hbinds r) with (c := c) as [w Hw]; [|exact Hset|].
    { rewrite Hsplit. apply elem_of_app. right. apply elem_of_cons. auto. }
    rewrite Hw. now apply do_update_lookup_in.
  - intros c Hc1. apply do_update_lookup_out.
    intros Hset. apply build_upsert_set_cols in Hset as [Hset _]. auto.
  - apply (rows_with_key_run st Hkns v); [exact Hv|].
    intros Hnil.
    assert (In old (rows_with_key unique_key v tbl)) as Hin.
    { apply filter_In. split.
      - apply list_elem_of_In, list_elem_of_lookup. eauto.
      - now apply bool_decide_eq_true. }
    unfold st in Hnil. simpl in Hnil. rewrite Hnil in Hin. exact Hin.
Qed.

Lemma upsert_updates_in_place_witness :
  exists row : gmap string cell,
    updated_members !! 0%nat = Some row
    /\ row !! "lms_user_id" = Some (CInt 1)
    /\ (forall c, c ∈ df_columns two_members -> c <> "lms_user_id" ->
                  row !! c = record_at 0 two_members !! c)
    /\ (forall c, c ∉ df_columns two_members -> row !! c = stored_member !! c)
    /\ length (rows_with_key "lms_user_id" (CInt 1)
                 updated_members)
       = length (rows_with_key "lms_user_id" (CInt 1) [stored_member]).
Proof.
  apply (upsert_updates_in_place accepts_all two_members
           "department_members" "lms_user_id" "public" [stored_member] _
           CNull (CInt 1) 0 stored_member (record_at 0 two_members)
           [] [record_at 1 two_members]).
  - vm_compute. reflexivity.
  - reflexivity.
  - vm_compute. reflexivity.
  - discriminate.
  - constructor; [|constructor]. vm_compute. discriminate.
  - reflexivity.
  - vm_compute. reflexivity.
Defined.

(** * Further properties *)

(** ** Type Coercer *)

Lemma df_shape_set name cells cells' df :
  df_get name df = Some cells ->
  length cells' = length cells ->
  df_shape (df_set name cells' df) = df_shape df.
Proof.
  induction df as [|[n old] rest IH]; simpl; [discriminate|].
  destruct (String.eqb n name); simpl.
  - intros [= ->] ->. reflexivity.
  - intros Hget Hlen. now rewrite IH.
Qed.

Lemma all_some_length {A : Type} (l : list (option A)) (l' : list A) :
  all_some l = Some l' -> length l' = length l.
Proof.
  revert l'. induction l as [|[a|] l IH]; simpl; intros l' H; try discriminate.
  - now injection H as <-.
  - destruct (all_some l) as [r|]; [|discriminate].
    injection H as <-. simpl. now rewrite (IH r).
Qed.

Lemma all_ok_length {A : Type} (l : list (result A)) (l' : list A) :
  all_ok l = Ok l' -> length l' = length l.
Proof.
  revert l'. induction l as [|[a|msg] l IH]; simpl; intros l' H; try discriminate.
  - now injection H as <-.
  - destruct (all_ok l) as [r|]; [|discriminate].
    injection H as <-. simpl. now rewrite (IH r).
Qed.

Lemma all_ok_Forall2 {A B : Type} (f : A -> result B) (l : list A) (l' : list B) :
  all_ok (map f l) = Ok l' -> Forall2 (fun a b => f a = Ok b) l l'.
Proof.
  revert l'. induction l as [|a l IH]; simpl; intros l' H.
  - injection H as <-. constructor.
  - destruct (f a) as [b|msg] eqn:Hfa; [|discriminate].
    destruct (all_ok (map f l)) as [r|]; [|discriminate].
    injection H as <-. constructor; auto.
Qed.

Lemma convert_column_length str_to_numeric to_datetime_coerce json_dumps
    dtype cells cells' :
  convert_column str_to_numeric to_datetime_coerce json_dumps dtype cells = Ok cells' ->
  length cells' = length cells.
Proof.
  unfold convert_column.
  destruct (is_integer_family dtype).
  { destruct (all_some _) as [r|] eqn:H; [|discriminate]. intros [= <-].
    apply all_some_length in H. now rewrite length_map in H. }
  destruct (is_text_family dtype); [intros [= <-]; apply length_map|].
  destruct (is_boolean_family dtype); [intros [= <-]; apply length_map|].
  destruct (is_date_family dtype).
  { destruct (all_some _) as [r|] eqn:H; [|discriminate]. intros [= <-].
    apply all_some_length in H. now rewrite length_map in H. }
  destruct (is_json_family dtype).
  { intros H. apply all_ok_length in H. now rewrite length_map in H. }
  now intros [= <-].
Qed.

Lemma df_shape_prepass df : df_shape (prepass df) = df_shape df.
Proof.
  unfold df_shape, prepass. rewrite map_map. apply map_ext.
  intros [n cells]. simpl. now rewrite length_map.
Qed.

(** The loop keeps the shape of the frame, whether it ends or raises. *)
Lemma convert_loop_shape str_to_numeric to_datetime_coerce json_dumps schema :
  forall df,
    df_shape (fst (convert_loop str_to_numeric to_datetime_coerce json_dumps
                     schema df))
    = df_shape df.
Proof.
  induction schema as [|[col dtype] rest IH]; simpl; intros df; [reflexivity|].
  destruct (df_get col df) as [cells|] eqn:Hget; [|apply IH].
  destruct (convert_column _ _ _ dtype cells) as [cells'|cause] eqn:Hconv;
    [|reflexivity].
  rewrite IH. apply (df_shape_set _ cells); [exact Hget|].
  now apply convert_column_length in Hconv.
Qed.

Lemma df_shape_columns df : map fst (df_shape df) = df_columns df.
Proof.
  unfold df_shape, df_columns. rewrite map_map. reflexivity.
Qed.

Lemma df_shape_nrows df df' : df_shape df = df_shape df' -> nrows df = nrows df'.
Proof.
  destruct df as [|[n c] df], df' as [|[n' c'] df']; simpl; try discriminate;
    [reflexivity|]. now intros [= _ ->].
Qed.

(** X1.  Whether it ends or raises, the coercion pass leaves a frame with the
    same column labels in the same order and the same number of rows in each
    column: it adds, drops, renames and reorders nothing. *)
Theorem coercion_keeps_shape
    (str_to_numeric : string -> numeric)
    (to_datetime_coerce : cell -> option (datetime * tzinfo))
    (json_dumps : cell -> result string)
    (df : dataframe) (schema : schema_info) :
  df_shape (fst (convert_dataframe_dtypes str_to_numeric to_datetime_coerce
                   json_dumps df schema))
  = df_shape df
  /\ df_columns (fst (convert_dataframe_dtypes str_to_numeric to_datetime_coerce
                        json_dumps df schema))
     = df_columns df
  /\ nrows (fst (convert_dataframe_dtypes str_to_numeric to_datetime_coerce
                   json_dumps df schema))
     = nrows df.
Proof.
  assert (df_shape (fst (convert_dataframe_dtypes str_to_numeric
                           to_datetime_coerce json_dumps df schema))
          = df_shape df) as Hshape.
  { unfold convert_dataframe_dtypes.
    now rewrite convert_loop_shape, df_shape_prepass. }
  split; [exact Hshape|]. split.
  - now rewrite <- !df_shape_columns, Hshape.
  - now apply df_shape_nrows.
Qed.

(** X2.  Whether the pass ends or raises, a column that the schema does not
    name is left as the pre-pass made it: each float replaced by its text
    without ['.0'], every other value as it was. *)
Theorem unlisted_column_only_prepassed
    (str_to_numeric : string -> numeric)
    (to_datetime_coerce : cell -> option (datetime * tzinfo))
    (json_dumps : cell -> result string)
    (df : dataframe) (schema : schema_info) (col : string) :
  col ∉ map fst schema ->
  df_get col (fst (convert_dataframe_dtypes str_to_numeric to_datetime_coerce
                     json_dumps df schema))
  = option_map (map strip_float) (df_get col df).
Proof.
  intros Hout. unfold convert_dataframe_dtypes. rewrite <- df_get_prepass.
  generalize (prepass df). clear df.
  induction schema as [|[c0 t0] rest IH]; simpl; intros df; [reflexivity|].
  apply not_elem_of_cons in Hout as [Hne Hout].
  destruct (df_get c0 df) as [cells|]; [|now apply IH].
  destruct (convert_column _ _ _ t0 cells) as [cells'|cause]; [|reflexivity].
  rewrite IH by exact Hout. now apply df_get_set_ne.
Qed.

Lemma unlisted_column_only_prepassed_witness :
  df_get "badge" (fst (convert_dataframe_dtypes Decimal.to_numeric no_dates
                         plain_json profile_frame profile_schema))
  = option_map (map strip_float) (df_get "badge" profile_frame)
  /\ df_get "badge" (fst (convert_dataframe_dtypes Decimal.to_numeric no_dates
                            plain_json profile_frame profile_schema))
     = Some [CStr "3"; CStr "nan"].
Proof.
  split; [|vm_compute; reflexivity].
  apply (unlisted_column_only_prepassed Decimal.to_numeric no_dates plain_json
           profile_frame profile_schema "badge").
  decide_by_computation.
Defined.

(** X3.  A column whose declared type is in none of the five families (a
    NUMERIC, a SMALLINT, a REAL) gets no conversion of its own: after a pass
    that does not raise it holds what the pre-pass made of it, so its floats
    are texts. *)
Theorem unknown_type_only_prepassed
    (str_to_numeric : string -> numeric)
    (to_datetime_coerce : cell -> option (datetime * tzinfo))
    (json_dumps : cell -> result string)
    (df df' : dataframe) (schema : schema_info) (col dtype : string)
    (cells : list cell) :
  NoDup (map fst schema) ->
  (col, dtype) ∈ schema ->
  no_family dtype = true ->
  df_get col df = Some cells ->
  convert_dataframe_dtypes str_to_numeric to_datetime_coerce json_dumps df schema
    = (df', None) ->
  df_get col df' = Some (map strip_float cells).
Proof.
  intros Hnd Hin Hfam Hget Hrun.
  destruct (convert_dataframe_column _ _ _ _ _ _ _ _ _ Hnd Hin Hget Hrun)
    as (cells' & Hconv & ->).
  unfold no_family in Hfam. unfold convert_column in Hconv.
  destruct (is_integer_family dtype); [discriminate|].
  destruct (is_text_family dtype); [discriminate|].
  destruct (is_boolean_family dtype); [discriminate|].
  destruct (is_date_family dtype); [discriminate|].
  destruct (is_json_family dtype); [discriminate|].
  now injection Hconv as <-.
Qed.

Lemma unknown_type_only_prepassed_witness :
  df_get "salary"
    [("lms_user_id", [CInt 7; CInt 8]);
     ("salary", [CStr "1200"; CStr "950.5"]);
     ("custom_fields", [CStr "nan"; CStr "{}"]);
     ("badge", [CStr "3"; CStr "nan"])]
  = Some (map strip_float [CFloat "1200.0"; CFloat "950.5"]).
Proof.
  apply (unknown_type_only_prepassed Decimal.to_numeric no_dates plain_json
           profile_frame _ profile_schema "salary" "NUMERIC(10, 2)").
  - decide_by_computation.
  - decide_by_computation.
  - reflexivity.
  - reflexivity.
  - vm_compute. reflexivity.
Defined.

(** X4.  In a column of the JSON family a missing value of [read_csv] is not
    written as NULL: the pre-pass has made the float NaN the text ['nan'],
    which [pd.isna] does not take for missing, so the cell ends as the JSON
    encoding of that text.  [None] ends as NULL, and nothing else does. *)
Theorem json_column_keeps_nan_text
    (str_to_numeric : string -> numeric)
    (to_datetime_coerce : cell -> option (datetime * tzinfo))
    (json_dumps : cell -> result string)
    (df df' : dataframe) (schema : schema_info) (col dtype : string)
    (cells : list cell) :
  NoDup (map fst schema) ->
  (col, dtype) ∈ schema ->
  is_json_family dtype = true ->
  df_get col df = Some cells ->
  convert_dataframe_dtypes str_to_numeric to_datetime_coerce json_dumps df schema
    = (df', None) ->
  exists cells',
    df_get col df' = Some cells'
    /\ Forall2 (fun c c' =>
                  (c = NaN -> exists s, json_dumps (CStr "nan") = Ok s /\ c' = CStr s)
                  /\ (c = CNull -> c' = CNull)
                  /\ (c' = CNull -> c = CNull)) cells cells'.
Proof.
  intros Hnd Hin Hfam Hget Hrun.
  destruct (convert_dataframe_column _ _ _ _ _ _ _ _ _ Hnd Hin Hget Hrun)
    as (cells' & Hconv & Hget').
  exists cells'. split; [exact Hget'|].
  pose proof Hfam as Hothers. unfold is_json_family in Hothers.
  unfold convert_column in Hconv.
  destruct (is_integer_family dtype); [discriminate|].
  destruct (is_text_family dtype); [discriminate|].
  destruct (is_boolean_family dtype); [discriminate|].
  destruct (is_date_family dtype); [discriminate|].
  rewrite Hfam, map_map in Hconv.
  apply all_ok_Forall2 in Hconv.
  apply (Forall2_impl _ _ _ _ Hconv). clear. intros c c' Hc.
  split; [|split].
  - intros ->. change (strip_float NaN) with (CStr "nan") in Hc.
    unfold to_json in Hc. simpl in Hc.
    destruct (json_dumps (CStr "nan")) as [s|]; [|discriminate].
    injection Hc as <-. eauto.
  - intros ->. unfold to_json in Hc. simpl in Hc. now injection Hc as <-.
  - intros ->. unfold to_json in Hc.
    destruct c as [r|z|b|s|t tz|]; simpl in Hc; try reflexivity;
      destruct (json_dumps _); discriminate.
Qed.

Lemma json_column_keeps_nan_text_witness :
  exists cells',
    df_get "custom_fields"
      [("lms_user_id", [CInt 7; CInt 8]);
       ("salary", [CStr "1200"; CStr "950.5"]);
       ("custom_fields", [CStr (quoted "nan"); CStr (quoted "{}")]);
       ("badge", [CStr "3"; CStr "nan"])] = Some cells'
    /\ Forall2 (fun c c' =>
                  (c = NaN -> exists s, quoting_json (CStr "nan") = Ok s /\ c' = CStr s)
                  /\ (c = CNull -> c' = CNull)
                  /\ (c' = CNull -> c = CNull)) [NaN; CStr "{}"] cells'.
Proof.
  apply (json_column_keeps_nan_text Decimal.to_numeric no_dates quoting_json
           profile_frame _ profile_schema "custom_fields" "JSONB").
  - decide_by_computation.
  - decide_by_computation.
  - reflexivity.
  - reflexivity.
  - vm_compute. reflexivity.
Defined.

(** ** Datetime Normalizer *)

Lemma df_set_same name cells df :
  df_get name df = Some cells -> df_set name cells df = df.
Proof.
  induction df as [|[n old] rest IH]; simpl; [reflexivity|].
  destruct (String.eqb n name).
  - now intros [= ->].
  - intros H. now rewrite IH.
Qed.

Lemma df_get_set_None name other cells df :
  df_get other df = None -> df_get other (df_set name cells df) = None.
Proof.
  induction df as [|[n old] rest IH]; simpl; [reflexivity|].
  destruct (String.eqb n other) eqn:Hn; [discriminate|].
  intros H. destruct (String.eqb n name); simpl; rewrite Hn; auto.
Qed.

Lemma df_get_None name df : df_get name df = None <-> name ∉ df_columns df.
Proof.
  unfold df_columns. induction df as [|[n old] rest IH]; simpl.
  - split; [intros _; apply not_elem_of_nil|reflexivity].
  - rewrite not_elem_of_cons. destruct (String.eqb_spec n name) as [->|Hne].
    + split; [discriminate|]. intros [H _]. now contradiction H.
    + rewrite IH. split; [intros H; split; [congruence|exact H]|tauto].
Qed.

Section MoreOnNormalizer.

Variable strptime_unicode : string -> option datetime.

(** A run that raises nothing found every listed column. *)
Lemma parse_datetime_columns_listed names : forall df df',
  parse_datetime_columns strptime_unicode df names = (df', None) ->
  forall n, n ∈ names -> is_Some (df_get n df).
Proof.
  induction names as [|name rest IH]; intros df df' Hrun n Hn;
    cbn [parse_datetime_columns] in Hrun.
  - now apply elem_of_nil in Hn.
  - destruct (df_get name df) as [cells|] eqn:Hget; [|discriminate].
    apply elem_of_cons in Hn as [->|Hn]; [eauto|].
    specialize (IH _ _ Hrun n Hn).
    destruct (df_get n df) eqn:Hn'; [eauto|].
    rewrite df_get_set_None in IH by exact Hn'. exact IH.
Qed.

(** On a frame whose listed columns are normalized already, the normalizer
    changes nothing. *)
Lemma parse_datetime_columns_fixed names : forall df,
  (forall n, n ∈ names ->
             exists cells, df_get n df = Some cells
                           /\ map (normalize_cell strptime_unicode) cells = cells) ->
  parse_datetime_columns strptime_unicode df names = (df, None).
Proof.
  induction names as [|name rest IH]; intros df Hall;
    cbn [parse_datetime_columns]; [reflexivity|].
  destruct (Hall name) as (cells & Hget & Hfix); [apply elem_of_cons; auto|].
  rewrite Hget, Hfix, (df_set_same _ _ _ Hget).
  apply IH. intros n Hn. apply Hall, elem_of_cons. auto.
Qed.

(** X5.  The normalizer is idempotent: run again on the frame that a first
    run left, with the same list, it raises nothing and leaves that frame as
    it is. *)
Theorem normalizer_is_idempotent
    (df df' : dataframe) (column_names : list string) :
  parse_datetime_columns strptime_unicode df column_names = (df', None) ->
  parse_datetime_columns strptime_unicode df' column_names = (df', None).
Proof.
  intros Hrun.
  pose proof (parse_datetime_columns_listed _ _ _ Hrun) as Hall.
  destruct (parse_datetime_columns_total strptime_unicode column_names df Hall)
    as (df'' & Hrun' & Hcols).
  assert (df'' = df') as -> by congruence.
  apply parse_datetime_columns_fixed. intros n Hn.
  destruct (Hall n Hn) as [cells Hget].
  exists (map (normalize_cell strptime_unicode) cells). split.
  - rewrite (Hcols n cells Hget). now rewrite bool_decide_eq_true_2 by exact Hn.
  - rewrite map_map. apply map_ext. intros c. apply normalize_cell_idem.
Qed.


Lemma parse_datetime_columns_app l1 l2 : forall df,
  parse_datetime_columns strptime_unicode df (l1 ++ l2)
  = match parse_datetime_columns strptime_unicode df l1 with
    | (df1, None) => parse_datetime_columns strptime_unicode df1 l2
    | (df1, Some e) => (df1, Some e)
    end.
Proof.
  induction l1 as [|name l1 IH]; intros df; cbn [parse_datetime_columns app];
    [reflexivity|].
  destruct (df_get name df); [apply IH|reflexivity].
Qed.

(** X6.  The normalizer stops at the first listed column that the frame does
    not have, with the message that names it; the listed columns before it
    are left normalized, every other column as it was, and the columns listed
    after it are not reached. *)
Theorem normalizer_stops_at_missing_column
    (df : dataframe) (before after : list string) (missing : string) :
  (forall n, n ∈ before -> is_Some (df_get n df)) ->
  df_get missing df = None ->
  exists df',
    parse_datetime_columns strptime_unicode df (before ++ missing :: after)
    = (df', Some ("Failed to parse datetime column '" ++ missing ++ "': '"
                  ++ missing ++ "'"))
    /\ forall col cells,
         df_get col df = Some cells ->
         df_get col df'
         = Some (if bool_decide (col ∈ before)
                 then map (normalize_cell strptime_unicode) cells else cells).
Proof.
  intros Hall Hmissing.
  destruct (parse_datetime_columns_total strptime_unicode before df Hall) as (df' & Hrun & Hcols).
  exists df'. split; [|exact Hcols].
  rewrite parse_datetime_columns_app, Hrun. cbn [parse_datetime_columns].
  assert (df_get missing df' = None) as ->; [|reflexivity].
  clear Hcols. revert df df' Hall Hmissing Hrun.
  induction before as [|name rest IH]; intros df df' Hall Hmissing Hrun;
    cbn [parse_datetime_columns] in Hrun.
  - now injection Hrun as <-.
  - destruct (df_get name df) as [cells|]; [|discriminate].
    pose proof (parse_datetime_columns_listed _ _ _ Hrun) as Hrest.
    apply (IH _ _ Hrest); [|exact Hrun].
    now apply df_get_set_None.
Qed.

End MoreOnNormalizer.

Lemma normalizer_is_idempotent_witness :
  parse_datetime_columns no_unicode
    [("lms_user_id", [CInt 1; CInt 2; CInt 3]);
     ("date_hired", [CStamp (DateTime 2024 3 15 10 30 0) UTC; CNull; CNull])]
    ["date_hired"]
  = ([("lms_user_id", [CInt 1; CInt 2; CInt 3]);
      ("date_hired", [CStamp (DateTime 2024 3 15 10 30 0) UTC; CNull; CNull])],
     None).
Proof.
  apply (normalizer_is_idempotent no_unicode hired_frame).
  vm_compute. reflexivity.
Defined.

Lemma normalizer_stops_at_missing_column_witness :
  exists df',
    parse_datetime_columns no_unicode hired_frame (["date_hired"] ++ "date_added" :: ["date_edited"])
    = (df', Some ("Failed to parse datetime column '" ++ "date_added" ++ "': '"
                  ++ "date_added" ++ "'"))
    /\ forall col cells,
         df_get col hired_frame = Some cells ->
         df_get col df'
         = Some (if bool_decide (col ∈ ["date_hired"])
                 then map (normalize_cell no_unicode) cells else cells).
Proof.
  apply (normalizer_stops_at_missing_column no_unicode hired_frame ["date_hired"]
           ["date_edited"] "date_added").
  - intros n Hn. apply list_elem_of_singleton in Hn as ->. vm_compute. eauto.
  - reflexivity.
Defined.

(** ** Upsert Engine *)

Section MoreOnBatches.

Variable st : upsert_stmt.
Hypothesis key_not_set : conflict_col st ∉ set_cols st.

Lemma rows_with_key_insert v r tbl :
  v <> CNull ->
  (length (rows_with_key (conflict_col st) v tbl) <= 1)%nat ->
  (length (rows_with_key (conflict_col st) v (insert_on_conflict st r tbl)) <= 1)%nat.
Proof.
  intros Hv Hone.
  destruct (rows_with_key (conflict_col st) v tbl) as [|o rest] eqn:Hrows.
  - rewrite insert_on_conflict_touch.
    unfold rows_with_key at 1. rewrite List.filter_app.
    fold (rows_with_key (conflict_col st) v (map (touch st r) tbl)).
    rewrite rows_with_key_touch, Hrows, length_app by exact key_not_set.
    simpl. destruct (existsb _ tbl); simpl; [lia|].
    destruct (bool_decide _); simpl; lia.
  - rewrite rows_with_key_step; auto.
    + now rewrite Hrows.
    + now rewrite Hrows.
Qed.

Lemma run_keeps_keys_unique rs : forall tbl,
  unique_keys (conflict_col st) tbl ->
  unique_keys (conflict_col st) (run st rs tbl).
Proof.
  induction rs as [|r rs IH]; simpl; intros tbl Huniq; [exact Huniq|].
  apply IH. intros v Hv. apply rows_with_key_insert; auto.
Qed.

Lemma insert_on_conflict_length r tbl :
  (length tbl <= length (insert_on_conflict st r tbl))%nat.
Proof.
  rewrite insert_on_conflict_touch, length_app, length_map. lia.
Qed.

Lemma run_length rs : forall tbl, (length tbl <= length (run st rs tbl))%nat.
Proof.
  induction rs as [|r rs IH]; simpl; intros tbl; [lia|].
  pose proof (insert_on_conflict_length r tbl). specialize (IH (insert_on_conflict st r tbl)).
  lia.
Qed.

(** A record without a key collides with nothing, as a row of the table. *)
Lemma unkeyed_row_conflicts (r r0 : gmap string cell) :
  conflicts (conflict_col st) r r = false ->
  conflicts (conflict_col st) r r0 = false.
Proof.
  unfold conflicts. destruct (r !! conflict_col st) as [w|]; [|now destruct (r0 !! _)].
  rewrite bool_decide_eq_true_2 by reflexivity. rewrite andb_true_r.
  intros Hnull. destruct (r0 !! conflict_col st) as [v|]; [|reflexivity].
  destruct (bool_decide_reflect (v = w)) as [->|_]; [|apply andb_false_r].
  now rewrite Hnull.
Qed.

(** After the batch, executing it again changes no row, whether or not its
    records carry a key. *)
Lemma run_settled_any post : forall pre tbl,
  Forall (fun r => forall c, c ∈ set_cols st -> is_Some (r !! c)) pre ->
  Forall (fun r => forall c, c ∈ set_cols st -> is_Some (r !! c)) post ->
  (forall o, o ∈ tbl -> touch_all st pre o = o) ->
  forall o, o ∈ run st post tbl -> touch_all st (pre ++ post) o = o.
Proof.
  induction post as [|r post IH]; intros pre tbl Hpre Hpost Hset o Ho.
  - rewrite app_nil_r. now apply Hset.
  - apply Forall_cons in Hpost as [Hr Hpost].
    replace (pre ++ r :: post)%list with ((pre ++ [r]) ++ post)%list
      by (now rewrite <- app_assoc).
    apply (IH (pre ++ [r])%list (insert_on_conflict st r tbl)); auto.
    { apply Forall_app. split; [exact Hpre|]. now constructor. }
    clear o Ho. intros o Ho. rewrite touch_all_app. simpl.
    rewrite insert_on_conflict_touch in Ho.
    apply elem_of_app in Ho as [Ho|Ho].
    + apply list_elem_of_In, in_map_iff in Ho as (o0 & <- & Ho0).
      apply list_elem_of_In in Ho0. unfold touch at 2 3.
      destruct (conflicts _ o0 r) eqn:Hc.
      * rewrite touch_after; auto.
        -- now apply do_update_absorb.
        -- now rewrite conflicts_do_update.
      * rewrite (Hset _ Ho0). unfold touch. now rewrite Hc.
    + destruct (existsb _ tbl); [now apply elem_of_nil in Ho|].
      apply list_elem_of_singleton in Ho as ->.
      destruct (conflicts (conflict_col st) r r) eqn:Hself.
      * rewrite touch_after; auto using do_update_self.
      * unfold touch at 1. rewrite conflicts_touch_all, Hself by exact key_not_set.
        apply touch_all_none. apply Forall_forall. intros r0 _.
        now apply unkeyed_row_conflicts.
Qed.

End MoreOnBatches.

Lemma unique_keys_one key (row : gmap string cell) : unique_keys key [row].
Proof.
  intros v _. unfold rows_with_key. simpl. destruct (bool_decide _); simpl; lia.
Qed.

(** X7.  The engine never makes two rows share a key: on a table where no two
    rows hold the same non-NULL value in the key column, the table that a
    call leaves, whether it succeeds or raises, is such a table again. *)
Theorem upsert_keeps_keys_unique
    (refuses : gmap string cell -> option string) (df : dataframe)
    (table_name unique_key schema : string) (tbl : list (gmap string cell)) :
  unique_keys unique_key tbl ->
  unique_keys unique_key
    (fst (upsert_dataframe_to_postgres refuses df table_name unique_key schema tbl)).
Proof.
  intros Huniq.
  pose proof (upsert_outcome refuses df table_name unique_key schema tbl) as Hout.
  simpl in Hout. destruct (snd (execute _ _ _ _)) as [cause|].
  - rewrite Hout. exact Huniq.
  - destruct Hout as [-> _]. simpl fst.
    apply (run_keeps_keys_unique (build_upsert df table_name unique_key schema));
      [apply build_upsert_key_not_set|exact Huniq].
Qed.

Lemma upsert_keeps_keys_unique_witness :
  unique_keys "lms_user_id" [stored_member]
  /\ unique_keys "lms_user_id"
       (fst (upsert_dataframe_to_postgres accepts_all two_members
               "department_members" "lms_user_id" "public" [stored_member])).
Proof.
  split; [apply unique_keys_one|].
  apply (upsert_keeps_keys_unique accepts_all two_members
           "department_members" "lms_user_id" "public" [stored_member]).
  apply unique_keys_one.
Defined.

(** X8.  The engine deletes nothing and touches only the rows that the batch
    names: after a call that succeeds, a row whose key no record of the batch
    carries is at the same place and unchanged, and the table has at least
    as many rows as before. *)
Theorem upsert_leaves_other_rows
    (refuses : gmap string cell -> option string) (df : dataframe)
    (table_name unique_key schema : string) (tbl tbl' : list (gmap string cell))
    (ret : cell) (i : nat) (old : gmap string cell) :
  upsert_dataframe_to_postgres refuses df table_name unique_key schema tbl
    = (tbl', Ok ret) ->
  tbl !! i = Some old ->
  Forall (fun r => r !! unique_key <> old !! unique_key) (to_dict_records df) ->
  tbl' !! i = Some old /\ (length tbl <= length tbl')%nat.
Proof.
  intros Hcall Hi Hother.
  set (st := build_upsert df table_name unique_key schema).
  pose proof (upsert_outcome refuses df table_name unique_key schema tbl) as Hout.
  simpl in Hout. fold st in Hout.
  destruct (snd (execute refuses st _ _)) as [cause|].
  { rewrite Hout in Hcall. discriminate. }
  destruct Hout as [Hout _]. rewrite Hout in Hcall. injection Hcall as <- _.
  split; [|apply run_length].
  rewrite (run_lookup st _ tbl i old Hi). f_equal.
  apply touch_all_none. apply (Forall_impl _ _ _ Hother).
  intros r Hr. unfold conflicts. simpl.
  destruct (r !! unique_key) as [v|]; [|reflexivity].
  destruct (old !! unique_key) as [w|]; [|reflexivity].
  destruct (bool_decide_reflect (v = w)) as [->|_]; [congruence|].
  apply andb_false_r.
Qed.

Lemma upsert_leaves_other_rows_witness :
  [ {[ "lms_user_id" := CInt 9; "first_name" := CStr "Zoe" ]};
    {[ "lms_user_id" := CInt 1; "first_name" := CStr "Ada"; "notes" := CStr "kept" ]};
    {[ "lms_user_id" := CInt 2; "first_name" := CStr "Bob" ]} ] !! 0%nat
  = Some other_member
  /\ (length [other_member; stored_member]
      <= length [ ({[ "lms_user_id" := CInt 9; "first_name" := CStr "Zoe" ]}
                   : gmap string cell);
                  {[ "lms_user_id" := CInt 1; "first_name" := CStr "Ada";
                     "notes" := CStr "kept" ]};
                  {[ "lms_user_id" := CInt 2; "first_name" := CStr "Bob" ]} ])%nat.
Proof.
  apply (upsert_leaves_other_rows accepts_all two_members
           "department_members" "lms_user_id" "public"
           [other_member; stored_member] _ CNull 0 other_member).
  - vm_compute. reflexivity.
  - reflexivity.
  - repeat constructor; vm_compute; discriminate.
Defined.

(** X9.  After a call that succeeds, the table holds every record of the
    batch that carries a key: a row with that key in which every column of
    the batch has the value of the record, the last of the batch with that
    key when several carry it.  This holds whether the key was in the table
    before (the row was updated) or not (the row was added). *)
Theorem upsert_stores_every_record
    (refuses : gmap string cell -> option string) (df : dataframe)
    (table_name unique_key schema : string) (tbl tbl' : list (gmap string cell))
    (ret v : cell) (r : gmap string cell) (pre post : list (gmap string cell)) :
  upsert_dataframe_to_postgres refuses df table_name unique_key schema tbl
    = (tbl', Ok ret) ->
  to_dict_records df = (pre ++ r :: post)%list ->
  r !! unique_key = Some v ->
  v <> CNull ->
  Forall (fun r' => r' !! unique_key <> Some v) post ->
  exists row,
    row ∈ tbl'
    /\ row !! unique_key = Some v
    /\ forall c, c ∈ df_columns df -> row !! c = r !! c.
Proof.
  intros Hcall Hsplit Hr Hv Hpost.
  set (st := build_upsert df table_name unique_key schema).
  pose proof (build_upsert_key_not_set df table_name unique_key schema) as Hkns.
  pose proof (build_upsert_binds df table_name unique_key schema) as Hbinds.
  fold st in Hkns, Hbinds.
  pose proof (upsert_outcome refuses df table_name unique_key schema tbl) as Hout.
  simpl in Hout. fold st in Hout.
  destruct (snd (execute refuses st _ _)) as [cause|].
  { rewrite Hout in Hcall. discriminate. }
  destruct Hout as [Hout _]. rewrite Hout in Hcall. injection Hcall as <- _.
  assert (keyed st r) as Hkeyed by (exists v; auto).
  assert (r ∈ to_dict_records df) as Hin.
  { rewrite Hsplit. apply elem_of_app. right. apply elem_of_cons. auto. }
  pose proof (present_after_run st Hkns r _ tbl Hin Hkeyed) as Hpresent.
  apply existsb_exists in Hpresent as (row & Hrow & Hc).
  apply list_elem_of_In in Hrow.
  assert (row !! unique_key = Some v) as Hkey.
  { unfold conflicts in Hc. simpl in Hc. rewrite Hr in Hc.
    destruct (row !! unique_key) as [w|]; [|discriminate].
    apply andb_prop in Hc as [_ Hc]. apply bool_decide_eq_true in Hc. congruence. }
  assert (row = do_update (set_cols st) r row) as Hsettled.
  { rewrite <- (run_settled_any st Hkns (to_dict_records df) [] tbl) at 1;
      [|constructor|exact Hbinds|intros o _; reflexivity|exact Hrow].
    simpl app. rewrite Hsplit in *. apply touch_all_last; auto.
    apply (Forall_impl _ _ _ Hpost). intros r' Hr'.
    unfold conflicts. simpl. rewrite Hkey.
    destruct (r' !! unique_key) as [w|]; [|reflexivity].
    destruct (bool_decide_reflect (w = v)) as [->|_]; [congruence|].
    apply andb_false_r. }
  exists row. split; [exact Hrow|]. split; [exact Hkey|].
  intros c Hc'. destruct (decide (c = unique_key)) as [->|Hne]; [congruence|].
  assert (c ∈ set_cols st) as Hset by (now apply build_upsert_set_cols).
  rewrite Forall_forall in Hbinds. destruct (Hbinds r Hin c Hset) as [w Hw].
  rewrite Hsettled, Hw. now apply do_update_lookup_in.
Qed.

Lemma upsert_stores_every_record_witness :
  exists row : gmap string cell,
    row ∈ updated_members
    /\ row !! "lms_user_id" = Some (CInt 2)
    /\ forall c, c ∈ df_columns two_members ->
                 row !! c = record_at 1 two_members !! c.
Proof.
  apply (upsert_stores_every_record accepts_all two_members
           "department_members" "lms_user_id" "public" [stored_member] _
           CNull (CInt 2) (record_at 1 two_members)
           [record_at 0 two_members] []).
  - vm_compute. reflexivity.
  - reflexivity.
  - vm_compute. reflexivity.
  - discriminate.
  - constructor.
Defined.

(** X10.  A frame with rows whose only column is the unique key cannot be
    upserted: the statement built for it sets no column, the database
    refuses to parse it, and the call raises and leaves the table as it
    was. *)
Theorem upsert_needs_a_column_to_set
    (refuses : gmap string cell -> option string) (df : dataframe)
    (table_name unique_key schema : string) (tbl : list (gmap string cell)) :
  (forall c, c ∈ df_columns df -> c = unique_key) ->
  nrows df <> O ->
  upsert_dataframe_to_postgres refuses df table_name unique_key schema tbl
  = (tbl, Raise ("An error occurred during upsert: " ++ syntax_error_msg)).
Proof.
  intros Honly Hrows.
  pose proof (upsert_outcome refuses df table_name unique_key schema tbl) as Hout.
  simpl in Hout.
  assert (set_cols (build_upsert df table_name unique_key schema) = []) as Hset.
  { simpl. induction (df_columns df) as [|c cols IH]; [reflexivity|].
    rewrite filter_cons. destruct (decide (c <> unique_key)) as [Hne|_].
    - exfalso. apply Hne, Honly, elem_of_cons. auto.
    - apply IH. intros c' Hc'. apply Honly, elem_of_cons. auto. }
  assert (snd (execute refuses (build_upsert df table_name unique_key schema)
                 (to_dict_records df) {| committed := tbl; working := Some tbl |})
          = Some syntax_error_msg) as Hexec.
  { unfold to_dict_records. destruct (nrows df) as [|n]; [contradiction|].
    unfold execute. cbn [seq map executemany working]. unfold exec_row.
    now rewrite Hset. }
  rewrite Hexec in Hout. exact Hout.
Qed.

Lemma upsert_needs_a_column_to_set_witness :
  upsert_dataframe_to_postgres accepts_all key_only_frame
    "department_members" "lms_user_id" "public" [stored_member]
  = ([stored_member],
     Raise ("An error occurred during upsert: " ++ syntax_error_msg)).
Proof.
  apply (upsert_needs_a_column_to_set accepts_all key_only_frame
           "department_members" "lms_user_id" "public" [stored_member]).
  - intros c Hc. apply list_elem_of_singleton in Hc. exact Hc.
  - discriminate.
Defined.

(** ** Pipeline Driver *)

(** The [except] clause leaves the table alone; it returns the message as the
    body when the topic took the notification, and raises when it did not. *)
Lemma handle_failure_cases publish tbl msg :
  (publish (sns_message msg) = None
   /\ handle_failure publish tbl msg
      = (tbl, [sns_message msg], Ok {| statusCode := None; body := msg |}))
  \/ (exists cause,
        publish (sns_message msg) = Some cause
        /\ handle_failure publish tbl msg = (tbl, [], Raise (sns_error cause))).
Proof.
  unfold handle_failure, send_sns_notification.
  destruct (publish (sns_message msg)) as [cause|]; [right; eauto|left; auto].
Qed.

(** A listed column that is missing makes the normalizer raise. *)
Lemma parse_datetime_columns_missing strptime_unicode df names n :
  n ∈ names -> df_get n df = None ->
  exists df' e, parse_datetime_columns strptime_unicode df names = (df', Some e).
Proof.
  intros Hin Hnone.
  destruct (parse_datetime_columns strptime_unicode df names) as [df' [e|]] eqn:Hrun;
    [eauto|].
  destruct (parse_datetime_columns_listed _ _ _ _ Hrun n Hin) as [cells Hget].
  congruence.
Qed.

(** X11.  A run of the handler ends in one of three ways.  It returns the
    response with status 200, having delivered no notification; or it leaves
    the destination table exactly as it was, delivers one notification
    ['6fr-s3-to-rds failed: <message>'] and returns a response with that
    message as its body and no status code; or, the topic refusing the
    notification, it leaves the table as it was, delivers nothing and
    raises ['Failed to send SNS notification: <cause>']. *)
Theorem handler_succeeds_or_leaves_table
    (refuses : gmap string cell -> option string)
    (str_to_numeric : string -> numeric)
    (to_datetime_coerce : cell -> option (datetime * tzinfo))
    (json_dumps : cell -> result string)
    (strptime_unicode : string -> option datetime)
    (s3_object : result dataframe) (db_engine : option string)
    (table_schema : result schema_info) (schema_name : string)
    (publish : string -> option string) (tbl : list (gmap string cell)) :
  let run := lambda_handler refuses str_to_numeric to_datetime_coerce json_dumps
               strptime_unicode s3_object db_engine table_schema schema_name publish tbl in
  (snd run = Ok success_response /\ snd (fst run) = [])
  \/ (exists msg,
        publish (sns_message msg) = None
        /\ run = (tbl, [sns_message msg], Ok {| statusCode := None; body := msg |}))
  \/ (exists msg cause,
        publish (sns_message msg) = Some cause
        /\ run = (tbl, [], Raise (sns_error cause))).
Proof.
  assert (forall msg,
            (exists m, publish (sns_message m) = None
                       /\ handle_failure publish tbl msg
                          = (tbl, [sns_message m],
                             Ok {| statusCode := None; body := m |}))
            \/ (exists m cause, publish (sns_message m) = Some cause
                                /\ handle_failure publish tbl msg
                                   = (tbl, [], Raise (sns_error cause)))) as Hfail.
  { intros msg.
    destruct (handle_failure_cases publish tbl msg) as [[? ?]|(cause & ? & ?)];
      [left|right]; eauto. }
  cbv zeta. unfold lambda_handler.
  destruct s3_object as [df|e]; [|right; apply Hfail].
  destruct db_engine as [e|]; [right; apply Hfail|].
  destruct table_schema as [schema|e]; [|right; apply Hfail].
  destruct (convert_dataframe_dtypes _ _ _ df schema) as [df1 [e|]];
    [right; apply Hfail|].
  destruct (parse_datetime_columns _ df1 datetime_columns) as [df2 [e|]];
    [right; apply Hfail|].
  destruct (upsert_dataframe_to_postgres _ df2 _ _ _ tbl) as [tbl' [ret|e]] eqn:Hup.
  - left. auto.
  - apply upsert_raise_leaves_table in Hup as [-> _]. right. apply Hfail.
Qed.

(** X12.  A roster that lacks one of the five date columns that the handler
    lists is never loaded: whatever the other stages do, the run leaves the
    table as it was and does not return the response with status 200. *)
Theorem handler_needs_the_date_columns
    (refuses : gmap string cell -> option string)
    (str_to_numeric : string -> numeric)
    (to_datetime_coerce : cell -> option (datetime * tzinfo))
    (json_dumps : cell -> result string)
    (strptime_unicode : string -> option datetime)
    (df : dataframe) (db_engine : option string)
    (table_schema : result schema_info) (schema_name : string)
    (publish : string -> option string) (tbl : list (gmap string cell))
    (n : string) :
  n ∈ datetime_columns ->
  n ∉ df_columns df ->
  let run := lambda_handler refuses str_to_numeric to_datetime_coerce json_dumps
               strptime_unicode (Ok df) db_engine table_schema schema_name publish tbl in
  fst (fst run) = tbl
  /\ exists msg,
       snd run = Ok {| statusCode := None; body := msg |}
       \/ snd run = Raise (sns_error msg).
Proof.
  intros Hin Hout.
  assert (forall msg,
            fst (fst (handle_failure publish tbl msg)) = tbl
            /\ exists m,
                 snd (handle_failure publish tbl msg)
                 = Ok {| statusCode := None; body := m |}
                 \/ snd (handle_failure publish tbl msg) = Raise (sns_error m))
    as Hfail.
  { intros msg.
    destruct (handle_failure_cases publish tbl msg) as [[_ ->]|(cause & _ & ->)];
      simpl; eauto. }
  cbv zeta. unfold lambda_handler.
  destruct db_engine as [e|]; [apply Hfail|].
  destruct table_schema as [schema|e]; [|apply Hfail].
  destruct (convert_dataframe_dtypes _ _ _ df schema) as [df1 [e|]] eqn:Hconv;
    [apply Hfail|].
  assert (df_get n df1 = None) as Hnone.
  { apply df_get_None. rewrite <- df_shape_columns.
    replace df1 with (fst (convert_dataframe_dtypes str_to_numeric
                             to_datetime_coerce json_dumps df schema))
      by (now rewrite Hconv).
    unfold convert_dataframe_dtypes.
    now rewrite convert_loop_shape, df_shape_prepass, df_shape_columns. }
  destruct (parse_datetime_columns_missing strptime_unicode df1 datetime_columns n
              Hin Hnone)
    as (df2 & e & ->).
  apply Hfail.
Qed.

Lemma handler_needs_the_date_columns_witness :
  fst (fst (lambda_handler accepts_all Decimal.to_numeric no_dates plain_json no_unicode
              (Ok hired_frame) None (Ok members_schema) "public" topic_up
              [stored_member])) = [stored_member]
  /\ exists msg,
       snd (lambda_handler accepts_all Decimal.to_numeric no_dates plain_json no_unicode
              (Ok hired_frame) None (Ok members_schema) "public" topic_up
              [stored_member])
       = Ok {| statusCode := None; body := msg |}
       \/ snd (lambda_handler accepts_all Decimal.to_numeric no_dates plain_json no_unicode
                 (Ok hired_frame) None (Ok members_schema) "public" topic_up
                 [stored_member])
          = Raise (sns_error msg).
Proof.
  apply (handler_needs_the_date_columns accepts_all Decimal.to_numeric no_dates
           plain_json no_unicode hired_frame None (Ok members_schema) "public" topic_up
           [stored_member] "date_added").
  - decide_by_computation.
  - decide_by_computation.
Defined.

(** A roster with the five date columns is loaded, and the run answers 200. *)
Example handler_loads_the_roster :
  lambda_handler accepts_all Decimal.to_numeric no_dates plain_json no_unicode
    (Ok roster_frame) None (Ok roster_schema) "public" topic_up []
  = ([ {[ "lms_user_id" := CInt 1; "first_name" := CStr "Ada";
          "date_hired" := CStamp (DateTime 2024 3 15 10 30 0) UTC;
          "date_terminated" := CNull; "date_edited" := CNull;
          "date_added" := CStamp (DateTime 2023 1 2 8 0 0) UTC;
          "last_login_date" := CNull ]} ],
     [], Ok success_response).
Proof. vm_compute. reflexivity. Qed.

(** When the topic is down, a failed run raises instead of answering. *)
Example handler_raises_when_topic_is_down :
  lambda_handler accepts_all Decimal.to_numeric no_dates plain_json no_unicode
    (Raise "NoSuchKey") None (Ok roster_schema) "public" topic_down [stored_member]
  = ([stored_member], [],
     Raise "Failed to send SNS notification: endpoint unreachable").
Proof. reflexivity. Qed.

(** ** Column names of the first stage *)

Lemma dict_get_elem key v d : dict_get key d = Some v -> (key, v) ∈ d.
Proof.
  induction d as [|[k w] rest IH]; simpl; [discriminate|].
  destruct (String.eqb_spec k key) as [->|_].
  - intros [= ->]. apply elem_of_cons. auto.
  - intros H. apply elem_of_cons. auto.
Qed.

Lemma elem_dict_get key v d :
  NoDup (map fst d) -> (key, v) ∈ d -> dict_get key d = Some v.
Proof.
  induction d as [|[k w] rest IH]; simpl; intros Hnd Hin.
  - now apply elem_of_nil in Hin.
  - apply NoDup_cons in Hnd as [Hfresh Hnd].
    apply elem_of_cons in Hin as [[= -> ->]|Hin].
    + now rewrite String.eqb_refl.
    + destruct (String.eqb_spec k key) as [->|_]; [|auto].
      exfalso. apply Hfresh. now apply (elem_of_map_fst _ v).
Qed.

Lemma elem_of_map_snd {A B : Type} (a : A) (b : B) (l : list (A * B)) :
  (a, b) ∈ l -> b ∈ map snd l.
Proof.
  rewrite !list_elem_of_In. intros H. now apply (in_map snd) in H.
Qed.

(** No two entries of a dict with distinct values share a value. *)
Lemma dict_values_inj (d : list (string * string)) k1 k2 v :
  NoDup (map snd d) -> (k1, v) ∈ d -> (k2, v) ∈ d -> k1 = k2.
Proof.
  induction d as [|[k w] rest IH]; simpl; intros Hnd H1 H2.
  - now apply elem_of_nil in H1.
  - apply NoDup_cons in Hnd as [Hfresh Hnd].
    apply elem_of_cons in H1 as [H1|H1]; apply elem_of_cons in H2 as [H2|H2].
    + congruence.
    + exfalso. apply Hfresh. injection H1 as _ <-.
      now apply (elem_of_map_snd k2).
    + exfalso. apply Hfresh. injection H2 as _ <-.
      now apply (elem_of_map_snd k1).
    + now apply IH.
Qed.

Lemma conversion_dict_keys : NoDup (map fst conversion_dict).
Proof. decide_by_computation. Qed.

Lemma conversion_dict_values : NoDup (map snd conversion_dict).
Proof. decide_by_computation. Qed.

(** The new names are names that the dict leaves alone. *)
Lemma conversion_dict_values_fixed :
  Forall (fun v => rename_label v = v) (map snd conversion_dict).
Proof. repeat constructor. Qed.

Lemma rename_label_idem label : rename_label (rename_label label) = rename_label label.
Proof.
  unfold rename_label at 2 3.
  destruct (dict_get label conversion_dict) as [v|] eqn:Hget.
  - apply dict_get_elem, elem_of_map_snd in Hget.
    pose proof conversion_dict_values_fixed as Hfixed.
    rewrite Forall_forall in Hfixed. now apply Hfixed.
  - unfold rename_label. now rewrite Hget.
Qed.

(** X13.  Renaming the columns is idempotent: on a frame whose columns are
    renamed already, renaming changes nothing, whatever its labels. *)
Theorem convert_column_names_idempotent {A : Type} (df : list (string * list A)) :
  convert_column_names (convert_column_names df) = convert_column_names df.
Proof.
  unfold convert_column_names. rewrite map_map. apply map_ext.
  intros [label cells]. simpl. now rewrite rename_label_idem.
Qed.

(** X14.  Renaming moves no data: a column that the dict renames is found
    under its new name with the cells it had, provided the frame had no
    other column under that new name already. *)
Theorem renamed_column_keeps_cells (df : dataframe) (old_name new_name : string) :
  (old_name, new_name) ∈ conversion_dict ->
  new_name = old_name \/ new_name ∉ df_columns df ->
  df_get new_name (convert_column_names df) = df_get old_name df.
Proof.
  intros Hin Hfree.
  assert (rename_label old_name = new_name) as Hold.
  { unfold rename_label.
    now rewrite (elem_dict_get _ _ _ conversion_dict_keys Hin). }
  unfold df_columns in Hfree.
  induction df as [|[label cells] rest IH]; simpl in *; [reflexivity|].
  destruct (String.eqb_spec label old_name) as [->|Hne].
  - now rewrite Hold, String.eqb_refl.
  - destruct (String.eqb_spec (rename_label label) new_name) as [Heq|_].
    + exfalso. unfold rename_label in Heq.
      destruct (dict_get label conversion_dict) as [v|] eqn:Hget.
      * subst v. apply dict_get_elem in Hget.
        apply Hne. exact (dict_values_inj _ _ _ _ conversion_dict_values Hget Hin).
      * subst label. destruct Hfree as [->|Hfree]; [now apply Hne|].
        apply Hfree, elem_of_cons. auto.
    + apply IH. destruct Hfree as [->|Hfree]; [now left|right].
      intros H. apply Hfree, elem_of_cons. auto.
Qed.

Lemma renamed_column_keeps_cells_witness :
  df_get "lms_user_id" (convert_column_names api_frame) = df_get "id" api_frame
  /\ df_get "lms_user_id" (convert_column_names api_frame) = Some [CInt 1].
Proof.
  split; [|reflexivity].
  apply (renamed_column_keeps_cells api_frame "id" "lms_user_id").
  - decide_by_computation.
  - right. decide_by_computation.
Defined.

(** X15.  The two stages agree on their names: when the frame of the API has
    the identifier and the five date fields under the API's labels, the
    renamed frame has the unique key [lms_user_id] and each of the five date
    columns that the second stage's handler lists. *)
Theorem renaming_provides_stage_two_columns {A : Type} (df : list (string * list A)) :
  (forall k, k ∈ stage_two_sources -> k ∈ map fst df) ->
  forall n, n ∈ stage_two_columns -> n ∈ map fst (convert_column_names df).
Proof.
  intros Hall n Hn.
  assert (exists k, k ∈ stage_two_sources /\ rename_label k = n) as (k & Hk & <-).
  { unfold stage_two_columns, datetime_columns in Hn.
    repeat (apply elem_of_cons in Hn as [->|Hn]);
      [exists "id"|exists "dateHired"|exists "dateTerminated"|exists "dateEdited"
      |exists "dateAdded"|exists "lastLoginDate"|now apply elem_of_nil in Hn];
      (split; [decide_by_computation|reflexivity]). }
  specialize (Hall k Hk). unfold convert_column_names. rewrite map_map. simpl.
  apply list_elem_of_In in Hall. apply list_elem_of_In.
  apply in_map_iff in Hall as ([label cells] & <- & Hcol).
  apply in_map_iff. exists (label, cells). auto.
Qed.

Lemma renaming_provides_stage_two_columns_witness :
  Forall (fun n => n ∈ map fst (convert_column_names
                                  [("id", [1%nat]); ("dateHired", [2%nat]);
                                   ("dateTerminated", []); ("dateEdited", []);
                                   ("dateAdded", []); ("lastLoginDate", []);
                                   ("firstName", [])]))
         stage_two_columns.
Proof.
  apply Forall_forall.
  apply (renaming_provides_stage_two_columns
           [("id", [1%nat]); ("dateHired", [2%nat]);
            ("dateTerminated", []); ("dateEdited", []);
            ("dateAdded", []); ("lastLoginDate", []); ("firstName", [])]).
  intros k Hk. unfold stage_two_sources in Hk.
  repeat (apply elem_of_cons in Hk as [->|Hk]); try decide_by_computation.
  now apply elem_of_nil in Hk.
Defined.

(** ** Booleans *)

(** X16.  In a boolean column, after a pass that does not raise, a value ends
    as [False] only if it was the boolean [False], the integer 0, the empty
    text or [None] (or a float whose text the pre-pass emptied): every other
    value, the texts ['False'] and ['0'] and the floats 0.0 and NaN among
    them, ends as [True]. *)
Theorem boolean_column_false_only_when_empty
    (str_to_numeric : string -> numeric)
    (to_datetime_coerce : cell -> option (datetime * tzinfo))
    (json_dumps : cell -> result string)
    (df df' : dataframe) (schema : schema_info) (col dtype : string)
    (cells : list cell) :
  NoDup (map fst schema) ->
  (col, dtype) ∈ schema ->
  is_boolean_family dtype = true ->
  df_get col df = Some cells ->
  convert_dataframe_dtypes str_to_numeric to_datetime_coerce json_dumps df schema
    = (df', None) ->
  exists cells',
    df_get col df' = Some cells'
    /\ Forall2 (fun c c' =>
                  (c' = CBool true \/ c' = CBool false)
                  /\ (c' = CBool false ->
                      c = CBool false \/ c = CInt 0 \/ c = CStr "" \/ c = CNull
                      \/ exists r, c = CFloat r /\ PyStr.replace ".0" "" r = ""))
         cells cells'.
Proof.
  intros Hnd Hin Hfam Hget Hrun.
  destruct (convert_dataframe_column _ _ _ _ _ _ _ _ _ Hnd Hin Hget Hrun)
    as (cells' & Hconv & Hget').
  exists cells'. split; [exact Hget'|].
  unfold convert_column in Hconv.
  assert (is_integer_family dtype = false /\ is_text_family dtype = false)
    as [Hint Htext].
  { unfold is_boolean_family in Hfam.
    destruct (is_integer_family dtype), (is_text_family dtype);
      try discriminate; auto. }
  rewrite Hint, Htext, Hfam, map_map in Hconv. injection Hconv as <-.
  clear. induction cells as [|c l IH]; simpl; constructor; [|exact IH].
  split; [destruct (py_bool (strip_float c)); auto|].
  intros [= Hfalse]. destruct c as [r|z|[|]|s| |]; simpl in Hfalse;
    try discriminate; auto.
  - right. right. right. right. exists r. split; [reflexivity|].
    apply negb_false_iff, String.eqb_eq in Hfalse. exact Hfalse.
  - apply negb_false_iff, Z.eqb_eq in Hfalse. subst. auto.
  - apply negb_false_iff, String.eqb_eq in Hfalse. subst. auto.
Qed.

Lemma boolean_column_false_only_when_empty_witness :
  exists cells',
    df_get "is_active"
      [("lms_user_id", [CInt 42; CNull; CNull]);
       ("first_name", [CStr "Ada"; CStr " "; CStr "42"]);
       ("is_active", [CBool false; CBool true; CBool true])] = Some cells'
    /\ Forall2 (fun c c' =>
                  (c' = CBool true \/ c' = CBool false)
                  /\ (c' = CBool false ->
                      c = CBool false \/ c = CInt 0 \/ c = CStr "" \/ c = CNull
                      \/ exists r, c = CFloat r /\ PyStr.replace ".0" "" r = ""))
         [CBool false; NaN; CStr "False"] cells'.
Proof.
  apply (boolean_column_false_only_when_empty Decimal.to_numeric no_dates
           plain_json members_frame _ members_schema "is_active" "BOOLEAN").
  - decide_by_computation.
  - decide_by_computation.
  - reflexivity.
  - reflexivity.
  - vm_compute. reflexivity.
Defined.
